(** * Lucky wheel: daily spin quota and weighted prize draw

    A shallow embedding of [app.py]: the two ORM models [Prize] and
    [Player], [Player.spins_left_today], [weighted_random_choice] and the
    [/api/spin] request handler, followed by the properties of the quota
    tracker, the prize selector and the spin orchestration.

    Modelling conventions.
    - Python integers are unbounded: [Z].
    - Dates are the ISO strings produced by [date.today().isoformat()];
      [last_spin_date] is a nullable column: [option string].  The current
      date is an explicit argument [today_str].
    - [random.uniform(0, total)] returns a finite float.  Every finite float
      is a rational number and Python compares a float with an [int]
      exactly, so the drawn value is a [Q] and [r <= upto] is [Qle_bool].
      The generator's hidden state is an abstract type [G] threaded through
      the code that draws.
    - The database is a pair of tables, each a list of rows.  A handler
      works on the rows it loaded and the store only changes at
      [db.commit()]; a handler that returns without committing leaves the
      store as it found it (the [with SessionLocal() as db] block closes
      the session, which discards pending changes). *)

From Stdlib Require Import ZArith QArith Lia.
From stdpp Require Import base decidable option list strings sorting pretty.

Local Open Scope Z_scope.

(** ** Models *)

Module Prize.

(** [class Prize(Base)]: the columns of table [prizes]. *)
Record t : Type := mk {
  id : Z;
  name : string;
  weight : Z;
  active : bool;
}.

#[global] Instance eq_dec : EqDecision t.
Proof. solve_decision. Defined.

End Prize.

Module Player.

(** [class Player(Base)]: the columns of table [players]. *)
Record t : Type := mk {
  id : Z;
  name : option string;
  spins_per_day : Z;
  last_spin_date : option string;
  spins_today : Z;
  active : bool;
}.

#[global] Instance eq_dec : EqDecision t.
Proof. solve_decision. Defined.

(** Attribute assignments [self.last_spin_date = d] and
    [self.spins_today = n]. *)
Definition set_last_spin_date (d : option string) (self : t) : t :=
  mk (id self) (name self) (spins_per_day self) d (spins_today self)
     (active self).

Definition set_spins_today (n : Z) (self : t) : t :=
  mk (id self) (name self) (spins_per_day self) (last_spin_date self) n
     (active self).

(** [Player.spins_left_today], with [date.today().isoformat()] passed in
    as [today_str]. *)
Definition spins_left_today (today_str : string) (self : t) : Z :=
  if decide (last_spin_date self ≠ Some today_str) then
    spins_per_day self
  else
    Z.max (spins_per_day self - spins_today self) 0.

End Player.

(** ** The store *)

(** The two tables.  Primary keys make the [id]s of a table pairwise
    distinct; the properties that need it assume [primary_key]. *)
Record DB : Type := mkDB {
  players : list Player.t;
  prizes : list Prize.t;
}.

Definition primary_key (db : DB) : Prop :=
  NoDup (Player.id <$> players db).

(** [db.query(Player).filter(Player.id == pid, Player.active == True).first()] *)
Definition query_active_player (db : DB) (pid : Z) : option Player.t :=
  head (filter (λ p, Player.id p = pid ∧ Player.active p = true) (players db)).

(** The order of [order_by(Prize.id)]. *)
Definition by_id (p q : Prize.t) : Prop := Prize.id p ≤ Prize.id q.

#[global] Instance by_id_dec (p q : Prize.t) : Decision (by_id p q) :=
  decide (Prize.id p ≤ Prize.id q).

(** [db.query(Prize).filter(Prize.active == True, Prize.weight > 0)
       .order_by(Prize.id).all()] *)
Definition query_eligible_prizes (db : DB) : list Prize.t :=
  merge_sort by_id
    (filter (λ p, Prize.active p = true ∧ 0 < Prize.weight p) (prizes db)).

(** [db.commit()] with [player] the only modified object: the unit of work
    writes its quota columns back to the row with its primary key,
    [UPDATE players SET last_spin_date = ?, spins_today = ? WHERE id = ?]. *)
Definition commit_player (player : Player.t) (db : DB) : DB :=
  mkDB
    ((λ row,
        if decide (Player.id row = Player.id player) then
          Player.set_spins_today (Player.spins_today player)
            (Player.set_last_spin_date (Player.last_spin_date player) row)
        else row) <$> players db)
    (prizes db).

(** ** Weighted prize selector *)

(** [x or y] on a Python integer [x]: a falsy (zero) left operand yields
    the right operand.  Column [weight] is [NOT NULL], so [p.weight] is
    never [None], and [int] is the identity on integers. *)
Definition py_or (x y : Z) : Z := if decide (x = 0) then y else x.

(** [[max(int(p.weight or 0), 0) for p in prizes]]. *)
Definition clamped_weights (prizes : list Prize.t) : list Z :=
  (λ p, Z.max (py_or (Prize.weight p) 0) 0) <$> prizes.

(** [sum(weights)]: a left fold from 0. *)
Definition py_sum (weights : list Z) : Z := foldl Z.add 0 weights.

(** The [for p, w in zip(prizes, weights)] loop: [Some p] when the loop
    returns [p], [None] when it runs to the end. *)
Fixpoint walk (r : Q) (upto : Z) (pws : list (Prize.t * Z)) : option Prize.t :=
  match pws with
  | [] => None
  | (p, w) :: rest =>
      let upto := upto + w in
      if Qle_bool r (inject_Z upto) then Some p else walk r upto rest
  end.

(** ** The spin route *)

(** The responses of [POST /api/spin], in the order of the [return]
    statements of the handler. *)
Inductive Response : Type :=
  | NotLoggedIn                (* 401, no player in the session *)
  | InvalidAccount             (* 400, player missing or inactive *)
  | QuotaReached               (* 400, daily quota used up *)
  | NoActivePrizes             (* 400, the prize query is empty *)
  | CannotChoosePrize          (* 500, the selector returned None *)
  | Success (prize : Prize.t) (spins_left_today : Z).   (* 200 *)

Definition status_code (resp : Response) : Z :=
  match resp with
  | NotLoggedIn => 401
  | InvalidAccount | QuotaReached | NoActivePrizes => 400
  | CannotChoosePrize => 500
  | Success _ _ => 200
  end.

(** The first two statements of the quota step: the date rollover applied
    to the loaded object. *)
Definition rollover (today_str : string) (player : Player.t) : Player.t :=
  if decide (Player.last_spin_date player ≠ Some today_str) then
    Player.set_spins_today 0
      (Player.set_last_spin_date (Some today_str) player)
  else player.

Section RandomSource.

(** The state of the [random] module and [random.uniform(a, b)]. *)
Context {G : Type}.
Variable uniform : Z → Z → G → Q * G.

(** [weighted_random_choice(prizes)].  The result [None] is Python's
    [None]; [prizes[-1]] is [last prizes], whose [None] would be an
    [IndexError] (lemma [fallback_defined] shows the list is never empty
    on that path). *)
Definition weighted_random_choice (prizes : list Prize.t) (g : G)
  : option Prize.t * G :=
  let weights := clamped_weights prizes in
  let total := py_sum weights in
  if decide (total ≤ 0) then (None, g)
  else
    let '(r, g') := uniform 0 total g in
    match walk r 0 (zip prizes weights) with
    | Some p => (Some p, g')
    | None => (last prizes, g')
    end.

(** The body of [spin()], for the session's [player_id] entry [pid]
    ([None] when the key is absent) on the day [today_str].  It reads the
    store and yields the response, the object handed to [db.commit()]
    ([None] on the paths that return without committing) and the
    generator after the request.  The attributes read after the commit
    are the ones just written. *)
Definition spin_handler (pid : option Z) (today_str : string) (db : DB) (g : G)
  : Response * option Player.t * G :=
  match pid with
  | None => (NotLoggedIn, None, g)
  | Some pid =>
    if decide (pid = 0) then (NotLoggedIn, None, g)     (* [not pid] *)
    else
      match query_active_player db pid with
      | None => (InvalidAccount, None, g)
      | Some player =>
        let player := rollover today_str player in
        if decide (Player.spins_per_day player ≤ Player.spins_today player)
        then (QuotaReached, None, g)
        else
          let prizes := query_eligible_prizes db in
          match prizes with
          | [] => (NoActivePrizes, None, g)
          | _ :: _ =>
            match weighted_random_choice prizes g with
            | (None, g') => (CannotChoosePrize, None, g')
            | (Some prize, g') =>
              let player :=
                Player.set_spins_today (Player.spins_today player + 1) player in
              let spins_left :=
                Z.max (Player.spins_per_day player - Player.spins_today player) 0 in
              (Success prize spins_left, Some player, g')
            end
          end
      end
  end.

(** Leaving the [with SessionLocal() as db] block: the commit when the
    handler reached it, nothing otherwise. *)
Definition close_session (dirty : option Player.t) (db : DB) : DB :=
  match dirty with
  | Some player => commit_player player db
  | None => db
  end.

(** One request served from start to end. *)
Definition spin (pid : option Z) (today_str : string) (db : DB) (g : G)
  : Response * DB * G :=
  let '(resp, dirty, g') := spin_handler pid today_str db g in
  (resp, close_session dirty db, g').

(** [n] requests of the same session on the same day, one after the
    other: the responses in order, the final store and generator. *)
Fixpoint spin_repeat (n : nat) (pid : option Z) (today_str : string)
    (db : DB) (g : G) : list Response * DB * G :=
  match n with
  | O => ([], db, g)
  | S n =>
      let '(resp, db', g') := spin pid today_str db g in
      let '(resps, db'', g'') := spin_repeat n pid today_str db' g' in
      (resp :: resps, db'', g'')
  end.

(** ** Two requests in flight

    A request touches the store twice: when it loads its rows and when it
    commits.  Nothing in the handler locks the player row between the two,
    so the requests of two clients interleave at these points. *)
Inductive Thread : Type :=
  | Waiting (pid : option Z)
  | Loaded (resp : Response) (dirty : option Player.t)
  | Finished (resp : Response).

Record Config : Type := mkConfig {
  thread_a : Thread;
  thread_b : Thread;
  store : DB;
  rng : G;
}.

Inductive Turn : Type := TurnA | TurnB.

Definition thread_step (today_str : string) (t : Thread) (db : DB) (g : G)
  : Thread * DB * G :=
  match t with
  | Waiting pid =>
      let '(resp, dirty, g') := spin_handler pid today_str db g in
      (Loaded resp dirty, db, g')
  | Loaded resp dirty => (Finished resp, close_session dirty db, g)
  | Finished resp => (Finished resp, db, g)
  end.

Definition step (today_str : string) (c : Config) (turn : Turn) : Config :=
  match turn with
  | TurnA =>
      let '(t, db, g) := thread_step today_str (thread_a c) (store c) (rng c) in
      mkConfig t (thread_b c) db g
  | TurnB =>
      let '(t, db, g) := thread_step today_str (thread_b c) (store c) (rng c) in
      mkConfig (thread_a c) t db g
  end.

Definition run (today_str : string) (schedule : list Turn) (c : Config)
  : Config :=
  foldl (step today_str) c schedule.

Definition two_requests (pid : option Z) (db : DB) (g : G) : Config :=
  mkConfig (Waiting pid) (Waiting pid) db g.

End RandomSource.

(** ** Vocabulary of the specification *)

(** The usage that counts on [today_str]: the stored counter when the
    stored date is today, zero otherwise. *)
Definition effective_spins_today (today_str : string) (player : Player.t) : Z :=
  if decide (Player.last_spin_date player = Some today_str) then
    Player.spins_today player
  else 0.

(** The error kinds of the spin API and the kind each failing response
    stands for. *)
Inductive ErrorKind : Type :=
  | NOT_AUTHENTICATED
  | PLAYER_NOT_FOUND
  | QUOTA_EXCEEDED
  | NO_ELIGIBLE_PRIZE.

Definition error_kind (resp : Response) : option ErrorKind :=
  match resp with
  | NotLoggedIn => Some NOT_AUTHENTICATED
  | InvalidAccount => Some PLAYER_NOT_FOUND
  | QuotaReached => Some QUOTA_EXCEEDED
  | NoActivePrizes | CannotChoosePrize => Some NO_ELIGIBLE_PRIZE
  | Success _ _ => None
  end.

Definition granted (resp : Response) : Prop :=
  ∃ prize left, resp = Success prize left.

(** Of two responses, one is a prize and the other the quota error. *)
Definition exactly_one_granted (ra rb : Response) : Prop :=
  (granted ra ∧ rb = QuotaReached) ∨ (ra = QuotaReached ∧ granted rb).

(** The isolation asked of two requests of one session in flight: however
    their store accesses interleave, the responses are one prize and one
    quota error. *)
Definition isolated {G : Type} (uniform : Z → Z → G → Q * G)
    (today_str : string) (pid : option Z) (db : DB) (g : G) : Prop :=
  ∀ schedule ra rb,
    thread_a (run uniform today_str schedule (two_requests pid db g))
      = Finished ra →
    thread_b (run uniform today_str schedule (two_requests pid db g))
      = Finished rb →
    exactly_one_granted ra rb.

(** The total weight of a prize list, each weight clamped to
    [max(weight, 0)]; on a prefix of the list, its cumulative weight. *)
Fixpoint total_weight (prizes : list Prize.t) : Z :=
  match prizes with
  | [] => 0
  | p :: rest => Z.max (Prize.weight p) 0 + total_weight rest
  end.

(** ** Sample data *)

(** A deterministic source: every draw from [a, b] is the fixed value [r];
    the state counts the draws. *)
Definition constant_source (r : Q) (a b : Z) (n : nat) : Q * nat := (r, S n).

(** A second source, with another state type: the draws are read off a
    tape. *)
Definition replay_source (a b : Z) (tape : list Q) : Q * list Q :=
  match tape with
  | [] => (inject_Z a, [])
  | r :: rest => (r, rest)
  end.

Definition prize_a : Prize.t := Prize.mk 1 "100K" 10 true.
Definition prize_b : Prize.t := Prize.mk 2 "Voucher" 0 true.
Definition prize_c : Prize.t := Prize.mk 3 "1M" 5 true.

Definition alice : Player.t :=
  Player.mk 1 (Some "User #1") 1 (Some "2025-01-01") 1 true.
Definition bob : Player.t :=
  Player.mk 2 (Some "User #2") 1 None 0 true.

(** A player whose quota an administrator set below zero. *)
Definition carol : Player.t :=
  Player.mk 3 (Some "User #3") (-1) (Some "2025-01-01") 0 true.

Definition sample_db : DB :=
  mkDB [alice; bob; carol] [prize_c; prize_b; prize_a].

(** The same players with nothing to win. *)
Definition no_prize_db : DB := mkDB [alice; bob; carol] [prize_b].

(** ** Sessions and the other routes

    The Flask session is the signed cookie of one client.  The code keeps
    two entries in it: [player_id], an integer, and [is_admin], which is
    only ever set to [True] or removed. *)
Record Session : Type := mkSession {
  sess_player_id : option Z;
  sess_is_admin : bool;
}.

(** [session.pop("player_id", None)] *)
Definition pop_player_id (sess : Session) : Session :=
  mkSession None (sess_is_admin sess).

(** [session["player_id"] = pid] *)
Definition set_player_id (pid : Z) (sess : Session) : Session :=
  mkSession (Some pid) (sess_is_admin sess).

(** [session["is_admin"] = True] and [session.pop("is_admin", None)] *)
Definition set_is_admin (sess : Session) : Session :=
  mkSession (sess_player_id sess) true.

Definition pop_is_admin (sess : Session) : Session :=
  mkSession (sess_player_id sess) false.

(** [POST /api/spin] for a client: the handler reads the session and
    leaves it as it is. *)
Definition spin_route {G : Type} (uniform : Z → Z → G → Q * G)
    (sess : Session) (today_str : string) (db : DB) (g : G)
  : Response * DB * G :=
  spin uniform (sess_player_id sess) today_str db g.

(** *** [GET /auto-login] *)

Inductive LoginResponse : Type :=
  | RedirectHome               (* [redirect("/")] *)
  | QuotaAlert                 (* the script that alerts and goes home, 200 *)
  | NoAccountLeft              (* the plain message, 200 *)
  | ChoiceIndexError.          (* [seq[i]] out of range inside [random.choice] *)

(** The test under which the loop over the active players appends [p] to
    [available]. *)
Definition available (today_str : string) (p : Player.t) : Prop :=
  Player.last_spin_date p ≠ Some today_str ∨
  Player.spins_today p < Player.spins_per_day p.

#[global] Instance available_dec (today_str : string) (p : Player.t) :
  Decision (available today_str p).
Proof. unfold available. apply _. Defined.

Section AutoLogin.

(** [random.choice(seq)] is [seq[self._randbelow(len(seq))]]. *)
Context {G : Type}.
Variable randbelow : nat → G → nat * G.

(** The tail of [auto_login()], from [players = ...] on. *)
Definition pick_account (sess : Session) (today_str : string) (db : DB) (g : G)
  : LoginResponse * Session * DB * G :=
  let players := filter (λ p, Player.active p = true) (players db) in
  let available := filter (available today_str) players in
  match available with
  | [] => (NoAccountLeft, sess, db, g)
  | _ :: _ =>
      let '(i, g') := randbelow (length available) g in
      match available !! i with
      | Some chosen =>
          (RedirectHome, set_player_id (Player.id chosen) sess, db, g')
      | None => (ChoiceIndexError, sess, db, g')
      end
  end.

(** [auto_login()]: the response, the session, the store and the generator
    after the request. *)
Definition auto_login (sess : Session) (today_str : string) (db : DB) (g : G)
  : LoginResponse * Session * DB * G :=
  match sess_player_id sess with
  | None => pick_account sess today_str db g
  | Some pid =>
    if decide (pid = 0) then pick_account sess today_str db g   (* [if pid:] *)
    else
      match query_active_player db pid with
      | Some player =>
          let '(player, db) :=
            if decide (Player.last_spin_date player ≠ Some today_str) then
              let player :=
                Player.set_spins_today 0
                  (Player.set_last_spin_date (Some today_str) player) in
              (player, commit_player player db)
            else (player, db) in
          if decide (Player.spins_today player < Player.spins_per_day player)
          then (RedirectHome, sess, db, g)
          else (QuotaAlert, sess, db, g)
      | None => pick_account (pop_player_id sess) today_str db g
      end
  end.

End AutoLogin.

(** *** [GET /api/player/status] *)

Record StatusResponse : Type := mkStatus {
  authenticated : bool;
  status_spins_left_today : Z;
  status_player : option (Z * option string);
}.

Definition not_authenticated : StatusResponse := mkStatus false 0 None.

(** [player_status()]: the JSON body and the session after the request. *)
Definition player_status (sess : Session) (today_str : string) (db : DB)
  : StatusResponse * Session :=
  match sess_player_id sess with
  | None => (not_authenticated, sess)
  | Some pid =>
    if decide (pid = 0) then (not_authenticated, sess)          (* [not pid] *)
    else
      match query_active_player db pid with
      | None => (not_authenticated, pop_player_id sess)
      | Some player =>
          let spins_left := Player.spins_left_today today_str player in
          (mkStatus true spins_left
             (Some (Player.id player, Player.name player)),
           sess)
      end
  end.

(** *** [GET /api/prizes] *)

(** [get_prizes()], for the query argument [active_only] ([None] when it is
    absent); [Prize.to_dict] keeps the four columns, so the rows stand for
    their dictionaries. *)
Definition get_prizes (active_only : option string) (db : DB) : list Prize.t :=
  let q :=
    if decide (active_only = Some "1") then
      filter (λ p, Prize.active p = true) (prizes db)
    else prizes db in
  merge_sort by_id q.

(** *** Administration *)

(** [is_admin()] *)
Definition is_admin (sess : Session) : bool := sess_is_admin sess.

(** [a or b] on two optional strings: [None] and the empty string are
    falsy. *)
Definition py_or_str (a b : option string) : option string :=
  match a with
  | Some s => if decide (s = "") then b else Some s
  | None => b
  end.

(** [check_admin()], for the header [X-Admin-Key] and the query argument
    [admin_key] of the request: [true] when it returns [None] (the request
    may go on), [false] when it returns the 401 response.  [ADMIN_KEY] is
    read from the environment at start-up. *)
Definition check_admin (ADMIN_KEY : string) (sess : Session)
    (header arg : option string) : bool :=
  if is_admin sess then true
  else
    match py_or_str header arg with
    | Some key =>
        if decide (key ≠ "" ∧ key = ADMIN_KEY) then true else false
    | None => false
    end.

Inductive AdminLoginResponse : Type :=
  | LoginKeyMissing            (* 400 *)
  | LoginKeyWrong              (* 401 *)
  | LoginOk.                   (* 200 *)

(** [admin_login_api()], for the entry [key] of the JSON body when it is a
    string ([None] when it is absent or [null]); [strip] is [str.strip]. *)
Definition admin_login_api (ADMIN_KEY : string) (strip : string → string)
    (key : option string) (sess : Session) : AdminLoginResponse * Session :=
  let key := strip (default "" (py_or_str key (Some ""))) in
  if decide (key = "") then (LoginKeyMissing, sess)
  else if decide (key ≠ ADMIN_KEY) then (LoginKeyWrong, pop_is_admin sess)
  else (LoginOk, set_is_admin sess).

(** [admin_logout_api()] *)
Definition admin_logout_api (sess : Session) : Session := pop_is_admin sess.

Inductive PageResponse : Type :=
  | Redirect (location : string)
  | SendFile (name : string).

(** [admin_page()] and [admin_login_page()] *)
Definition admin_page (sess : Session) : PageResponse :=
  if negb (is_admin sess) then Redirect "/admin/login"
  else SendFile "admin.html".

Definition admin_login_page (sess : Session) : PageResponse :=
  if is_admin sess then Redirect "/admin" else SendFile "login.html".

(** An entry of the JSON body after the conversion the handler applies to
    it ([int(...)], [bool(...)], [str(...)]): absent, a value the
    conversion raises on, or the converted value. *)
Inductive Field (A : Type) : Type :=
  | Absent
  | Raises
  | Given (a : A).

Arguments Absent {A}.
Arguments Raises {A}.
Arguments Given {A} a.

Inductive AdminResponse : Type :=
  | Unauthorized               (* 401, from [check_admin] *)
  | NameRequired               (* 400 *)
  | PrizeNotFound              (* 404 *)
  | ConversionError            (* 500, [int(...)] raised *)
  | Created (prize : Prize.t)  (* 201 *)
  | Updated (prize : Prize.t)  (* 200 *)
  | Deleted.                   (* 200 *)

(** [db.query(Prize).filter(Prize.id == pid).first()] *)
Definition query_prize (db : DB) (pid : Z) : option Prize.t :=
  head (filter (λ p, Prize.id p = pid) (prizes db)).

(** [db.add(p); db.commit()]: [INSERT INTO prizes]. *)
Definition insert_prize (p : Prize.t) (db : DB) : DB :=
  mkDB (players db) (prizes db ++ [p]).

(** [db.commit()] with the loaded prize [p] modified:
    [UPDATE prizes SET name = ?, weight = ?, active = ? WHERE id = ?]. *)
Definition commit_prize (p : Prize.t) (db : DB) : DB :=
  mkDB (players db)
    ((λ row,
        if decide (Prize.id row = Prize.id p) then
          Prize.mk (Prize.id row) (Prize.name p) (Prize.weight p)
            (Prize.active p)
        else row) <$> prizes db).

(** [db.delete(p); db.commit()]: [DELETE FROM prizes WHERE id = ?]. *)
Definition delete_prize (p : Prize.t) (db : DB) : DB :=
  mkDB (players db)
    (filter (λ row, Prize.id row ≠ Prize.id p) (prizes db)).

Section Admin.

Variable ADMIN_KEY : string.

(** [admin_create_prize()].  [name] is the entry [name] of the body
    ([None] when absent or [null]), [weight] is [int(data.get("weight", 1))],
    [active] is [bool(data.get("active", True))] when the entry is present,
    and [new_id] is the primary key the database gives to the new row. *)
Definition admin_create_prize (sess : Session) (header arg : option string)
    (name : option string) (weight : Field Z) (active : option bool)
    (new_id : Z) (db : DB) : AdminResponse * DB :=
  if negb (check_admin ADMIN_KEY sess header arg) then (Unauthorized, db)
  else
    match py_or_str name None with
    | None => (NameRequired, db)                                (* [not name] *)
    | Some name =>
      match weight with
      | Raises => (ConversionError, db)
      | _ =>
        let weight := match weight with Given w => w | _ => 1 end in
        let active := default true active in
        let p := Prize.mk new_id name weight active in
        (Created p, insert_prize p db)
      end
    end.

(** [admin_update_prize(pid)].  [name] is [str(data["name"])], [weight] is
    [int(data["weight"])] and [active] is [bool(data["active"])], each for
    an entry that is in the body. *)
Definition admin_update_prize (sess : Session) (header arg : option string)
    (pid : Z) (name : option string) (weight : Field Z) (active : option bool)
    (db : DB) : AdminResponse * DB :=
  if negb (check_admin ADMIN_KEY sess header arg) then (Unauthorized, db)
  else
    match query_prize db pid with
    | None => (PrizeNotFound, db)
    | Some p =>
      let p :=
        match name with
        | Some n => Prize.mk (Prize.id p) n (Prize.weight p) (Prize.active p)
        | None => p
        end in
      match weight with
      | Raises => (ConversionError, db)
      | _ =>
        let p :=
          match weight with
          | Given w => Prize.mk (Prize.id p) (Prize.name p) w (Prize.active p)
          | _ => p
          end in
        let p :=
          match active with
          | Some a => Prize.mk (Prize.id p) (Prize.name p) (Prize.weight p) a
          | None => p
          end in
        (Updated p, commit_prize p db)
      end
    end.

(** [admin_delete_prize(pid)] *)
Definition admin_delete_prize (sess : Session) (header arg : option string)
    (pid : Z) (db : DB) : AdminResponse * DB :=
  if negb (check_admin ADMIN_KEY sess header arg) then (Unauthorized, db)
  else
    match query_prize db pid with
    | None => (PrizeNotFound, db)
    | Some p => (Deleted, delete_prize p db)
    end.

End Admin.

(** *** [init_db] *)

(** The rows seeded into an empty [prizes] table. *)
Definition default_prizes : list (string * Z * bool) :=
  [ ("100K", 10, true);
    ("Mũi Tên", 8, true);
    ("1M", 1, true);
    ("Voucher", 6, true);
    ("500K", 3, true);
    ("Quà Tặng", 7, true);
    ("Không Có", 50, true);
    ("200K", 15, true) ].

(** The rows [init_db] adds to an empty table; [key n] is the primary key
    the database gives to the [n]-th row added. *)
Definition seed_prizes (key : nat → Z) : list Prize.t :=
  imap (λ n '(name, weight, active), Prize.mk (key n) name weight active)
    default_prizes.

Definition seed_players (key : nat → Z) : list Player.t :=
  imap (λ n i, Player.mk (key n) (Some ("User #" +:+ pretty i)) 1 None 0 true)
    (seqZ 1 100).

(** [init_db()], after [create_all]: each table is seeded when
    [count() == 0]. *)
Definition init_db (prize_key player_key : nat → Z) (db : DB) : DB :=
  mkDB
    (if decide (length (players db) = 0%nat) then seed_players player_key
     else players db)
    (if decide (length (prizes db) = 0%nat) then seed_prizes prize_key
     else prizes db).

(** A store with both tables created and empty. *)
Definition empty_db : DB := mkDB [] [].

(** The generator of the sample runs for [random.choice]: always the
    first element. *)
Definition first_choice (n : nat) (g : nat) : nat * nat := (O, S g).

(** A store whose active players all have a quota of one. *)
Definition small_db : DB := mkDB [alice; bob] [prize_c; prize_b; prize_a].

(** A client without a player, Bob's client, and the key of the sample
    administrator. *)
Definition guest : Session := mkSession None false.
Definition bob_session : Session := mkSession (Some 2) false.
Definition sample_key : string := "s3cret".

(** Keys handed out in sequence from 1. *)
Definition key_from_one (n : nat) : Z := Z.of_nat n + 1.

(** The number of prizes among a list of responses. *)
Definition count_granted (resps : list Response) : Z :=
  Z.of_nat (length (filter (λ r, status_code r = 200) resps)).

(** ** Properties of the prize selector *)

Lemma py_or_zero (w : Z) : py_or w 0 = w.
Proof. unfold py_or. case_decide; congruence. Qed.

Lemma clamped_weights_max (prizes : list Prize.t) :
  clamped_weights prizes = (λ p, Z.max (Prize.weight p) 0) <$> prizes.
Proof.
  unfold clamped_weights. apply list_fmap_ext.
  intros _ p _. now rewrite py_or_zero.
Qed.

Lemma foldl_add_shift (ws : list Z) (a : Z) :
  foldl Z.add a ws = a + foldl Z.add 0 ws.
Proof.
  revert a. induction ws as [|w ws IH]; intros a; simpl; [lia|].
  rewrite (IH (a + w)), (IH (0 + w)). lia.
Qed.

Lemma py_sum_total_weight (prizes : list Prize.t) :
  py_sum (clamped_weights prizes) = total_weight prizes.
Proof.
  rewrite clamped_weights_max. unfold py_sum.
  induction prizes as [|p rest IH]; [done|].
  rewrite fmap_cons. cbn [foldl total_weight].
  rewrite foldl_add_shift, IH. lia.
Qed.

Lemma total_weight_nonneg (prizes : list Prize.t) : 0 ≤ total_weight prizes.
Proof. induction prizes; simpl; lia. Qed.

Lemma total_weight_positive (prizes : list Prize.t) :
  prizes ≠ [] → Forall (λ p, 0 < Prize.weight p) prizes →
  0 < total_weight prizes.
Proof.
  destruct prizes as [|p rest]; [done|]. intros _ Hpos.
  apply Forall_cons_1 in Hpos as [Hp _]. simpl.
  pose proof (total_weight_nonneg rest). lia.
Qed.

(** A prize returned by the loop is one of the prizes walked over. *)
Lemma walk_elem_of (r : Q) (prizes : list Prize.t) (upto : Z) (p : Prize.t) :
  walk r upto (zip prizes (clamped_weights prizes)) = Some p → p ∈ prizes.
Proof.
  revert upto. induction prizes as [|q rest IH]; intros upto; simpl; [done|].
  destruct (Qle_bool r _).
  - intros [= ->]. left.
  - intros Hw. right. eauto.
Qed.

(** The loop returns the prize at the first position whose running sum
    reaches [r]. *)
Lemma walk_first (r : Q) (prizes : list Prize.t) (upto : Z) (i : nat)
    (p : Prize.t) :
  prizes !! i = Some p →
  (r <= inject_Z (upto + total_weight (take (S i) prizes)))%Q →
  (∀ j, (j < i)%nat →
        ¬ (r <= inject_Z (upto + total_weight (take (S j) prizes)))%Q) →
  walk r upto (zip prizes (clamped_weights prizes)) = Some p.
Proof.
  revert upto i. induction prizes as [|q rest IH]; intros upto i; [done|].
  intros Hi Hle Hlt. simpl. rewrite py_or_zero.
  destruct i as [|i].
  - injection Hi as ->. simpl in Hle. rewrite Z.add_0_r in Hle.
    apply Qle_bool_iff in Hle. now rewrite Hle.
  - destruct (Qle_bool r _) eqn:Hq.
    + apply Qle_bool_iff in Hq. exfalso. apply (Hlt O); [lia|].
      simpl. now rewrite Z.add_0_r.
    + apply (IH _ i); [done| |].
      * simpl in Hle. now rewrite <- Z.add_assoc.
      * intros j Hj Hc. apply (Hlt (S j)); [lia|].
        simpl. now rewrite Z.add_assoc.
Qed.

(** The loop does not tell apart two representations of the same number. *)
Lemma walk_Qeq (r1 r2 : Q) (upto : Z) (pws : list (Prize.t * Z)) :
  (r1 == r2)%Q → walk r1 upto pws = walk r2 upto pws.
Proof.
  intros Heq. revert upto.
  induction pws as [|[p w] rest IH]; intros upto; simpl; [done|].
  now rewrite (Qleb_comp _ _ Heq _ _ (Qeq_refl _)), IH.
Qed.

Section Selector.

Context {G : Type}.
Variable uniform : Z → Z → G → Q * G.

(** [weighted_random_choice] in terms of the total weight and the value
    drawn. *)
Lemma weighted_random_choice_unfold (prizes : list Prize.t) (g : G) :
  (weighted_random_choice uniform prizes g).1 =
    if decide (total_weight prizes ≤ 0) then None
    else
      match walk (uniform 0 (total_weight prizes) g).1 0
              (zip prizes (clamped_weights prizes)) with
      | Some p => Some p
      | None => last prizes
      end.
Proof.
  unfold weighted_random_choice. rewrite py_sum_total_weight.
  case_decide; [done|].
  destruct (uniform 0 _ g) as [r g']. simpl. now destruct (walk _ _ _).
Qed.

(** [prizes[-1]] is only reached on a list that has a last element. *)
Lemma fallback_defined (prizes : list Prize.t) :
  0 < total_weight prizes → is_Some (last prizes).
Proof.
  intros Hpos. destruct (last prizes) eqn:Hl; [eauto|].
  apply last_None in Hl. subst. simpl in Hpos. lia.
Qed.

Lemma weighted_random_choice_None (prizes : list Prize.t) (g : G) :
  (weighted_random_choice uniform prizes g).1 = None ↔
  total_weight prizes ≤ 0.
Proof.
  rewrite weighted_random_choice_unfold. case_decide as Ht; [done|].
  split; [|lia]. destruct (walk _ _ _); [done|].
  intros Hl. destruct (fallback_defined prizes) as [p Hp]; [lia|congruence].
Qed.

Lemma weighted_random_choice_elem_of (prizes : list Prize.t) (g : G)
    (p : Prize.t) :
  (weighted_random_choice uniform prizes g).1 = Some p → p ∈ prizes.
Proof.
  rewrite weighted_random_choice_unfold. case_decide; [done|].
  destruct (walk _ _ _) eqn:Hw.
  - intros [= ->]. eapply walk_elem_of, Hw.
  - apply last_Some_elem_of.
Qed.

End Selector.

(** C2. The selector clamps each weight to [max(weight, 0)]; it returns
    [None] exactly when the clamped weights sum to at most zero; and when
    the total is positive it returns a prize of the input list, whatever
    value the random source draws (in particular for every [r] in
    [[0, total]]). *)
Theorem choose_prize_none_iff_no_weight {G : Type}
    (uniform : Z → Z → G → Q * G) (prizes : list Prize.t) (g : G) :
  clamped_weights prizes = (λ p, Z.max (Prize.weight p) 0) <$> prizes ∧
  py_sum (clamped_weights prizes) = total_weight prizes ∧
  ((weighted_random_choice uniform prizes g).1 = None ↔
     total_weight prizes ≤ 0) ∧
  (0 < total_weight prizes →
     ∃ p, (weighted_random_choice uniform prizes g).1 = Some p ∧ p ∈ prizes).
Proof.
  split; [apply clamped_weights_max|].
  split; [apply py_sum_total_weight|].
  split; [apply weighted_random_choice_None|].
  intros Hpos.
  destruct (weighted_random_choice uniform prizes g).1 as [p|] eqn:Hc.
  - exists p. split; [done|]. eapply weighted_random_choice_elem_of, Hc.
  - apply weighted_random_choice_None in Hc. lia.
Qed.

(** C5. The selector walks the list in the order given and returns the
    prize at the first position whose cumulative weight is [>= r].  For
    weights [[10, 0, 5]] a draw of 0 returns the first prize, a draw of 15
    returns the third, and no draw returns the zero-weight second prize. *)
Theorem choose_prize_first_cumulative {G : Type}
    (uniform : Z → Z → G → Q * G) :
  (∀ (prizes : list Prize.t) (g : G) (i : nat) (p : Prize.t),
     0 < total_weight prizes →
     prizes !! i = Some p →
     let r := (uniform 0 (total_weight prizes) g).1 in
     (r <= inject_Z (total_weight (take (S i) prizes)))%Q →
     (∀ j, (j < i)%nat →
           ¬ (r <= inject_Z (total_weight (take (S j) prizes)))%Q) →
     (weighted_random_choice uniform prizes g).1 = Some p) ∧
  (∀ (p1 p2 p3 : Prize.t) (g : G),
     Prize.weight p1 = 10 → Prize.weight p2 = 0 → Prize.weight p3 = 5 →
     let r := (uniform 0 15 g).1 in
     let chosen := (weighted_random_choice uniform [p1; p2; p3] g).1 in
     ((r == 0)%Q → chosen = Some p1) ∧
     ((r == inject_Z 15)%Q → chosen = Some p3) ∧
     chosen ≠ Some p2).
Proof.
  split.
  - intros prizes g i p Hpos Hi r Hle Hlt.
    rewrite weighted_random_choice_unfold. case_decide; [lia|].
    fold r. now rewrite (walk_first r prizes 0 i p).
  - intros p1 p2 p3 g H1 H2 H3 r chosen.
    assert (Ht : total_weight [p1; p2; p3] = 15) by (simpl; lia).
    assert (Hc : chosen =
                 if Qle_bool r (inject_Z 10) then Some p1
                 else if Qle_bool r (inject_Z 15) then Some p3 else Some p3).
    { unfold chosen. rewrite weighted_random_choice_unfold, Ht.
      case_decide; [lia|]. fold r.
      cbn [zip zip_with clamped_weights fmap list_fmap walk].
      rewrite !py_or_zero, H1, H2, H3.
      change (0 + 10 `max` 0) with 10. change (10 + 0 `max` 0) with 10.
      change (10 + 5 `max` 0) with 15.
      destruct (Qle_bool r (inject_Z 10)); [done|].
      now destruct (Qle_bool r (inject_Z 15)). }
    split; [|split].
    + intros Hr. rewrite Hc.
      rewrite (Qleb_comp _ _ Hr _ _ (Qeq_refl (inject_Z 10))). done.
    + intros Hr. rewrite Hc.
      rewrite (Qleb_comp _ _ Hr _ _ (Qeq_refl (inject_Z 10))).
      rewrite (Qleb_comp _ _ Hr _ _ (Qeq_refl (inject_Z 15))). done.
    + rewrite Hc. intros Heq.
      destruct (Qle_bool r (inject_Z 10)); [|destruct (Qle_bool r (inject_Z 15))];
        injection Heq as ->; lia.
Qed.

(** C8. The prize chosen depends on the prize list and the drawn value
    only: two runs on the same list whose draws are the same number return
    the same prize, whatever the random sources and their states. *)
Theorem choose_prize_pure {G1 G2 : Type}
    (uniform1 : Z → Z → G1 → Q * G1) (uniform2 : Z → Z → G2 → Q * G2)
    (prizes : list Prize.t) (g1 : G1) (g2 : G2) :
  Qeq (uniform1 0 (total_weight prizes) g1).1
      (uniform2 0 (total_weight prizes) g2).1 →
  (weighted_random_choice uniform1 prizes g1).1 =
  (weighted_random_choice uniform2 prizes g2).1.
Proof.
  intros Hr. rewrite !weighted_random_choice_unfold.
  case_decide; [done|]. now rewrite (walk_Qeq _ _ _ _ Hr).
Qed.

(** ** Properties of the quota tracker *)

(** C1. On a day other than the stored [last_spin_date] the remaining
    spins are [spins_per_day], whatever the stored counter holds; on the
    stored day they are [max(spins_per_day - spins_today, 0)]. *)
Theorem remaining_spins_by_date (today_str : string) (player : Player.t) :
  (Player.last_spin_date player ≠ Some today_str →
     Player.spins_left_today today_str player = Player.spins_per_day player ∧
     ∀ n, Player.spins_left_today today_str (Player.set_spins_today n player)
          = Player.spins_per_day player) ∧
  (Player.last_spin_date player = Some today_str →
     Player.spins_left_today today_str player =
     Z.max (Player.spins_per_day player - Player.spins_today player) 0).
Proof.
  unfold Player.spins_left_today. split.
  - intros Hd. split; [|intros n; simpl]; now case_decide.
  - intros Hd. now case_decide.
Qed.

(** With a quota of zero nothing is left on any day. *)
Lemma remaining_spins_zero_quota (today_str : string) (player : Player.t) :
  Player.spins_per_day player = 0 → 0 ≤ Player.spins_today player →
  Player.spins_left_today today_str player = 0.
Proof.
  intros Hq Hu. unfold Player.spins_left_today. case_decide; lia.
Qed.

(** With a negative quota, the new-day branch hands the quota back as it
    is, without the clamp of the same-day branch. *)
Lemma remaining_spins_negative_quota (today_str : string) (player : Player.t) :
  Player.spins_per_day player < 0 →
  Player.last_spin_date player ≠ Some today_str →
  Player.spins_left_today today_str player < 0.
Proof.
  intros Hq Hd. unfold Player.spins_left_today. now case_decide.
Qed.

Lemma rollover_spins_today (today_str : string) (player : Player.t) :
  Player.spins_today (rollover today_str player) =
  effective_spins_today today_str player.
Proof.
  unfold rollover, effective_spins_today. repeat case_decide; done.
Qed.

Lemma rollover_last_spin_date (today_str : string) (player : Player.t) :
  Player.last_spin_date (rollover today_str player) = Some today_str.
Proof.
  unfold rollover. case_decide as Hd; [done|].
  now destruct (decide (Player.last_spin_date player = Some today_str)).
Qed.

Lemma rollover_frame (today_str : string) (player : Player.t) :
  Player.id (rollover today_str player) = Player.id player ∧
  Player.name (rollover today_str player) = Player.name player ∧
  Player.spins_per_day (rollover today_str player)
    = Player.spins_per_day player ∧
  Player.active (rollover today_str player) = Player.active player.
Proof. unfold rollover. now case_decide. Qed.

(** ** Properties of the store *)

Lemma query_active_player_None (db : DB) (pid : Z) :
  query_active_player db pid = None ↔
  ∀ p, p ∈ players db → Player.id p = pid → Player.active p = false.
Proof.
  unfold query_active_player. rewrite head_None. split.
  - intros Hnil p Hin Hid. destruct (Player.active p) eqn:Ha; [|done].
    exfalso. eapply (filter_nil_not_elem_of _ _ p Hnil); eauto.
  - intros Hall. destruct (filter _ _) as [|p rest] eqn:Hf; [done|].
    assert (Hp : p ∈ filter (λ p, Player.id p = pid ∧ Player.active p = true)
                   (players db)) by (rewrite Hf; left).
    apply list_elem_of_filter in Hp as [[Hid Ha] Hin].
    rewrite (Hall p Hin Hid) in Ha. done.
Qed.

Lemma query_active_player_Some (db : DB) (pid : Z) (player : Player.t) :
  query_active_player db pid = Some player →
  player ∈ players db ∧ Player.id player = pid ∧ Player.active player = true.
Proof.
  unfold query_active_player. intros Hh.
  apply head_Some_elem_of, list_elem_of_filter in Hh. tauto.
Qed.

Lemma query_eligible_prizes_elem_of (db : DB) (p : Prize.t) :
  p ∈ query_eligible_prizes db ↔
  p ∈ prizes db ∧ Prize.active p = true ∧ 0 < Prize.weight p.
Proof.
  unfold query_eligible_prizes.
  rewrite (merge_sort_Permutation by_id), list_elem_of_filter. tauto.
Qed.

Lemma query_eligible_prizes_sorted (db : DB) :
  Sorted by_id (query_eligible_prizes db).
Proof.
  assert (Total by_id) by (intros p q; unfold by_id; lia).
  now apply (Sorted_merge_sort by_id).
Qed.

Lemma query_eligible_prizes_positive (db : DB) :
  Forall (λ p, 0 < Prize.weight p) (query_eligible_prizes db).
Proof.
  apply Forall_forall. intros p Hp.
  now apply query_eligible_prizes_elem_of in Hp.
Qed.

Lemma head_filter_fmap {A : Type} (P : A → Prop) `{∀ x, Decision (P x)}
    (f : A → A) (l : list A) :
  (∀ x, P (f x) ↔ P x) →
  head (filter P (f <$> l)) = f <$> head (filter P l).
Proof.
  intros Hf. induction l as [|x l IH]; [done|].
  rewrite fmap_cons, !filter_cons.
  destruct (decide (P x)) as [Hx|Hx].
  - rewrite decide_True by now apply Hf. done.
  - rewrite decide_False by now rewrite Hf. done.
Qed.

(** After a commit, the player query returns the loaded row with the
    quota columns of the committed object. *)
Lemma query_after_commit (db : DB) (pid : Z) (player dirty : Player.t) :
  query_active_player db pid = Some player →
  Player.id dirty = pid →
  query_active_player (commit_player dirty db) pid =
    Some (Player.set_spins_today (Player.spins_today dirty)
            (Player.set_last_spin_date (Player.last_spin_date dirty) player)).
Proof.
  intros Hq Hid. pose proof (query_active_player_Some _ _ _ Hq) as (_ & Hp & _).
  unfold query_active_player in *. cbn [players commit_player].
  rewrite head_filter_fmap.
  - rewrite Hq. cbn [fmap option_fmap option_map].
    rewrite decide_True by congruence. done.
  - intros x. now case_decide.
Qed.

(** The rows of a table with a primary key are told apart by their [id]. *)
Lemma primary_key_inj (db : DB) (p q : Player.t) :
  primary_key db → p ∈ players db → q ∈ players db →
  Player.id p = Player.id q → p = q.
Proof.
  unfold primary_key. induction (players db) as [|x l IH]; [inversion 2|].
  rewrite fmap_cons, NoDup_cons, !elem_of_cons.
  intros [Hx Hl] [->|Hp] [->|Hq] Hid; auto.
  - exfalso. apply Hx. rewrite Hid. now apply list_elem_of_fmap_2.
  - exfalso. apply Hx. rewrite <- Hid. now apply list_elem_of_fmap_2.
Qed.

(** ** Properties of the spin route *)

Section Spin.

Context {G : Type}.
Variable uniform : Z → Z → G → Q * G.

(** The handler once the player is loaded, in terms of the effective usage
    of the stored row. *)
Lemma spin_handler_loaded (pid : Z) (today_str : string) (db : DB) (g : G)
    (player : Player.t) :
  pid ≠ 0 → query_active_player db pid = Some player →
  spin_handler uniform (Some pid) today_str db g =
    if decide (Player.spins_per_day player
               ≤ effective_spins_today today_str player)
    then (QuotaReached, None, g)
    else
      match query_eligible_prizes db with
      | [] => (NoActivePrizes, None, g)
      | _ :: _ =>
        match weighted_random_choice uniform (query_eligible_prizes db) g with
        | (None, g') => (CannotChoosePrize, None, g')
        | (Some prize, g') =>
          (Success prize
             (Player.spins_per_day player
              - (effective_spins_today today_str player + 1)),
           Some (Player.set_spins_today
                   (effective_spins_today today_str player + 1)
                   (rollover today_str player)),
           g')
        end
      end.
Proof.
  intros Hpid Hq. unfold spin_handler.
  rewrite decide_False by done. rewrite Hq. cbv zeta.
  rewrite rollover_spins_today.
  destruct (rollover_frame today_str player) as (_ & _ & -> & _).
  case_decide as Hquota; [done|].
  destruct (query_eligible_prizes db) as [|p0 rest]; [done|].
  destruct (weighted_random_choice _ _ _) as [[prize|] g']; [|done].
  cbn [Player.spins_per_day Player.spins_today Player.set_spins_today].
  destruct (rollover_frame today_str player) as (_ & _ & -> & _).
  do 2 f_equal. f_equal. lia.
Qed.

(** The selector never fails on what the prize query returns, unless the
    query returns nothing. *)
Lemma choose_eligible_None (db : DB) (g : G) :
  (weighted_random_choice uniform (query_eligible_prizes db) g).1 = None ↔
  query_eligible_prizes db = [].
Proof.
  rewrite weighted_random_choice_None. split.
  - intros Ht. destruct (query_eligible_prizes db) as [|p rest] eqn:Hq; [done|].
    pose proof (total_weight_positive (p :: rest)) as Hpos.
    rewrite <- Hq in Hpos at 2.
    specialize (Hpos ltac:(done) (query_eligible_prizes_positive db)). lia.
  - intros ->. done.
Qed.

(** A handler that does not answer with a prize commits nothing. *)
Lemma spin_handler_failure (pid : option Z) (today_str : string) (db : DB)
    (g : G) :
  ¬ granted (spin_handler uniform pid today_str db g).1.1 →
  (spin_handler uniform pid today_str db g).1.2 = None.
Proof.
  unfold spin_handler. destruct pid as [pid|]; [|done].
  case_decide; [done|]. destruct (query_active_player db pid); [|done].
  cbv zeta. case_decide; [done|].
  destruct (query_eligible_prizes db); [done|].
  destruct (weighted_random_choice _ _ _) as [[prize|] g']; [|done].
  intros Hn. exfalso. apply Hn. simpl. unfold granted. eauto.
Qed.

(** A handler that answers with a prize went through every check. *)
Lemma spin_handler_granted (pid : option Z) (today_str : string) (db : DB)
    (g g' : G) (prize : Prize.t) (left : Z) (dirty : option Player.t) :
  spin_handler uniform pid today_str db g = (Success prize left, dirty, g') →
  ∃ k player,
    pid = Some k ∧ k ≠ 0 ∧ query_active_player db k = Some player ∧
    effective_spins_today today_str player < Player.spins_per_day player ∧
    weighted_random_choice uniform (query_eligible_prizes db) g
      = (Some prize, g') ∧
    left = Player.spins_per_day player
           - (effective_spins_today today_str player + 1) ∧
    dirty = Some (Player.set_spins_today
                    (effective_spins_today today_str player + 1)
                    (rollover today_str player)).
Proof.
  destruct pid as [k|]; [|done].
  destruct (decide (k = 0)) as [->|Hk]; [done|].
  destruct (query_active_player db k) as [player|] eqn:Hq.
  - rewrite (spin_handler_loaded k today_str db g player Hk Hq).
    case_decide as Hquota; [done|].
    destruct (query_eligible_prizes db) as [|p0 rest] eqn:He; [done|].
    destruct (weighted_random_choice _ _ _) as [[p|] g1] eqn:Hw; [|done].
    intros [= -> <- <- ->]. exists k, player. repeat split; auto. lia.
  - unfold spin_handler. rewrite decide_False by done. now rewrite Hq.
Qed.

Lemma spin_response (pid : option Z) (today_str : string) (db : DB) (g : G) :
  (spin uniform pid today_str db g).1.1
  = (spin_handler uniform pid today_str db g).1.1.
Proof.
  unfold spin. now destruct (spin_handler _ _ _ _ _) as [[resp dirty] g'].
Qed.

Lemma spin_store (pid : option Z) (today_str : string) (db : DB) (g : G) :
  (spin uniform pid today_str db g).1.2
  = close_session (spin_handler uniform pid today_str db g).1.2 db.
Proof.
  unfold spin. now destruct (spin_handler _ _ _ _ _) as [[resp dirty] g'].
Qed.

(** A request of a player whose quota is used up. *)
Lemma spin_rejected (pid : Z) (today_str : string) (db : DB) (g : G)
    (player : Player.t) :
  pid ≠ 0 → query_active_player db pid = Some player →
  Player.spins_per_day player ≤ effective_spins_today today_str player →
  spin uniform (Some pid) today_str db g = (QuotaReached, db, g).
Proof.
  intros Hpid Hq Hquota. unfold spin.
  rewrite (spin_handler_loaded pid today_str db g player Hpid Hq).
  now rewrite decide_True by done.
Qed.

(** C3. When the effective usage has reached [spins_per_day], the request
    is rejected and the store is left as it was; repeating the request any
    number of times gives the same rejection and the same store; and every
    request that ends without a prize leaves the store as it was, so the
    counter is never incremented for a spin that failed. *)
Theorem quota_rejection_keeps_state (pid : Z) (today_str : string) (db : DB)
    (player : Player.t) :
  pid ≠ 0 → query_active_player db pid = Some player →
  Player.spins_per_day player ≤ effective_spins_today today_str player →
  (∀ g, spin uniform (Some pid) today_str db g = (QuotaReached, db, g)) ∧
  (∀ n g, spin_repeat uniform n (Some pid) today_str db g
          = (replicate n QuotaReached, db, g)) ∧
  (∀ pid' day db0 g,
     ¬ granted (spin uniform pid' day db0 g).1.1 →
     (spin uniform pid' day db0 g).1.2 = db0).
Proof.
  intros Hpid Hq Hquota.
  assert (Hrej : ∀ g, spin uniform (Some pid) today_str db g
                      = (QuotaReached, db, g))
    by (intros g; now apply spin_rejected with player).
  split; [done|]. split.
  - induction n as [|n IH]; intros g; [done|].
    cbn [spin_repeat]. now rewrite Hrej, IH.
  - intros pid' day db0 g. rewrite spin_response, spin_store.
    intros Hfail. now rewrite spin_handler_failure.
Qed.

(** A player whose quota is zero or negative is rejected on every day:
    the rollover sets the usage to zero, which already meets the quota. *)
Lemma spin_never_eligible (pid : Z) (today_str : string) (db : DB) (g : G)
    (player : Player.t) :
  pid ≠ 0 → query_active_player db pid = Some player →
  Player.spins_per_day player ≤ 0 → 0 ≤ Player.spins_today player →
  spin uniform (Some pid) today_str db g = (QuotaReached, db, g).
Proof.
  intros Hpid Hq Hquota Hused. apply spin_rejected with player; [done..|].
  unfold effective_spins_today. case_decide; lia.
Qed.

(** C6. For a session that carries a player id: the request fails with
    PLAYER_NOT_FOUND exactly when no active row has that id; otherwise
    with QUOTA_EXCEEDED exactly when the effective usage has reached the
    quota; otherwise with NO_ELIGIBLE_PRIZE exactly when the selector
    returns [None] on the active prizes of positive weight; otherwise it
    answers with the chosen prize and the spins that remain. *)
Theorem spin_outcome (pid : Z) (today_str : string) (db : DB) (g : G) :
  pid ≠ 0 →
  let resp := (spin uniform (Some pid) today_str db g).1.1 in
  let chosen :=
    (weighted_random_choice uniform (query_eligible_prizes db) g).1 in
  (error_kind resp = Some PLAYER_NOT_FOUND ↔
     ∀ p, p ∈ players db → Player.id p = pid → Player.active p = false) ∧
  (∀ player, query_active_player db pid = Some player →
     (error_kind resp = Some QUOTA_EXCEEDED ↔
        Player.spins_per_day player
        ≤ effective_spins_today today_str player) ∧
     (effective_spins_today today_str player < Player.spins_per_day player →
        (error_kind resp = Some NO_ELIGIBLE_PRIZE ↔ chosen = None) ∧
        (∀ prize, chosen = Some prize →
           resp = Success prize
                    (Player.spins_per_day player
                     - (effective_spins_today today_str player + 1))))).
Proof.
  intros Hpid resp chosen. subst resp. rewrite spin_response.
  rewrite <- query_active_player_None.
  destruct (query_active_player db pid) as [player|] eqn:Hq.
  - rewrite (spin_handler_loaded pid today_str db g player Hpid Hq).
    pose proof (choose_eligible_None db g) as Hnone. fold chosen in Hnone.
    case_decide as Hquota.
    { split; [done|]. intros ? [= <-]. split; [done|]. lia. }
    destruct (query_eligible_prizes db) as [|p0 rest] eqn:He.
    { split; [done|]. intros ? [= <-]. split; [split; [done|lia]|].
      intros _. split; [by rewrite Hnone|].
      intros prize Hc. apply proj2 in Hnone. rewrite Hnone in Hc; done. }
    subst chosen.
    destruct (weighted_random_choice _ _ _) as [[prize|] g'] eqn:Hw;
      cbn [fst error_kind] in *.
    + split; [done|]. intros ? [= <-]. split; [split; [done|lia]|].
      intros _. split; [done|]. now intros ? [= <-].
    + split; [done|]. intros ? [= <-]. split; [split; [done|lia]|].
      intros _. split; [done|]. done.
  - unfold spin_handler. rewrite decide_False by done. rewrite Hq.
    split; [done|]. done.
Qed.

(** C9. On a non-empty list of prizes of positive weight the selector
    returns a prize whatever is drawn; the prize query of the spin route
    only returns such prizes, and the route never answers
    "Cannot choose prize". *)
Theorem cannot_choose_prize_unreachable :
  (∀ (prizes : list Prize.t) (g : G),
     prizes ≠ [] → Forall (λ p, 0 < Prize.weight p) prizes →
     (weighted_random_choice uniform prizes g).1 ≠ None) ∧
  (∀ db, Forall (λ p, Prize.active p = true ∧ 0 < Prize.weight p)
           (query_eligible_prizes db)) ∧
  (∀ pid today_str db g,
     (spin uniform pid today_str db g).1.1 ≠ CannotChoosePrize ∧
     status_code (spin uniform pid today_str db g).1.1 ≠ 500).
Proof.
  split; [|split].
  - intros prizes g Hne Hpos.
    rewrite weighted_random_choice_None.
    pose proof (total_weight_positive prizes Hne Hpos). lia.
  - intros db. apply Forall_forall. intros p Hp.
    now apply query_eligible_prizes_elem_of in Hp.
  - intros pid today_str db g.
    assert (Hresp : (spin uniform pid today_str db g).1.1 ≠ CannotChoosePrize);
      [|split; [done|]; now destruct (spin uniform pid today_str db g).1.1].
    rewrite spin_response.
    unfold spin_handler. destruct pid as [pid|]; [|done].
    case_decide; [done|]. destruct (query_active_player db pid); [|done].
    cbv zeta. case_decide; [done|].
    destruct (query_eligible_prizes db) as [|p0 rest] eqn:He; [done|].
    destruct (weighted_random_choice _ _ _) as [[prize|] g'] eqn:Hw; [done|].
    exfalso. pose proof (choose_eligible_None db g) as [Hn _].
    rewrite He, Hw in Hn. now specialize (Hn eq_refl).
Qed.

(** C10. A request answered with a prize leaves the prize table and every
    row of another player as they were; in the row of the player it keeps
    [id], [name], [spins_per_day] and [active], sets [last_spin_date] to
    today and [spins_today] to one more than the usage after rollover. *)
Theorem spin_frame (pid : option Z) (today_str : string) (db db' : DB)
    (g g' : G) (prize : Prize.t) (left : Z) :
  primary_key db →
  spin uniform pid today_str db g = (Success prize left, db', g') →
  prizes db' = prizes db ∧
  length (players db') = length (players db) ∧
  ∀ i row, players db !! i = Some row →
    ∃ row', players db' !! i = Some row' ∧
      Player.id row' = Player.id row ∧
      Player.name row' = Player.name row ∧
      Player.spins_per_day row' = Player.spins_per_day row ∧
      Player.active row' = Player.active row ∧
      (Some (Player.id row) ≠ pid → row' = row) ∧
      (Some (Player.id row) = pid →
         Player.last_spin_date row' = Some today_str ∧
         Player.spins_today row'
         = effective_spins_today today_str row + 1).
Proof.
  intros Hpk. unfold spin.
  destruct (spin_handler _ _ _ _ _) as [[resp dirty] g1] eqn:Hh.
  intros [= -> <- <-].
  apply spin_handler_granted in Hh
    as (k & player & -> & Hk & Hq & Hquota & Hw & -> & ->).
  apply query_active_player_Some in Hq as (Hin & Hid & Hact).
  cbn [close_session commit_player prizes players].
  split; [done|]. split; [apply length_fmap|].
  intros i row Hrow. rewrite list_lookup_fmap, Hrow. cbn [fmap option_fmap option_map].
  eexists. split; [reflexivity|].
  cbn [Player.id Player.set_spins_today Player.spins_today
       Player.last_spin_date].
  destruct (rollover_frame today_str player) as (-> & _).
  rewrite rollover_last_spin_date.
  case_decide as Hrow_id.
  - assert (row = player) as ->.
    { apply (primary_key_inj db); [done| |done|done].
      apply list_elem_of_lookup. eauto. }
    cbn. split_and!; [done..|congruence|done].
  - split_and!; [done..|]. intros [= Hc]. congruence.
Qed.

(** Two requests served one after the other. *)
Lemma run_serial_a (pid : option Z) (today_str : string) (db : DB) (g : G) :
  run uniform today_str [TurnA; TurnA; TurnB; TurnB] (two_requests pid db g) =
    let '(ra, db1, g1) := spin uniform pid today_str db g in
    let '(rb, db2, g2) := spin uniform pid today_str db1 g1 in
    mkConfig (Finished ra) (Finished rb) db2 g2.
Proof.
  unfold run, two_requests, spin. simpl.
  destruct (spin_handler uniform pid today_str db g) as [[ra da] g1]. simpl.
  now destruct (spin_handler uniform pid today_str _ g1) as [[rb d2] g2].
Qed.

Lemma run_serial_b (pid : option Z) (today_str : string) (db : DB) (g : G) :
  run uniform today_str [TurnB; TurnB; TurnA; TurnA] (two_requests pid db g) =
    let '(rb, db1, g1) := spin uniform pid today_str db g in
    let '(ra, db2, g2) := spin uniform pid today_str db1 g1 in
    mkConfig (Finished ra) (Finished rb) db2 g2.
Proof.
  unfold run, two_requests, spin. simpl.
  destruct (spin_handler uniform pid today_str db g) as [[rb d1] g1]. simpl.
  now destruct (spin_handler uniform pid today_str _ g1) as [[ra d2] g2].
Qed.

(** With a quota of one and no spin yet today, the first of two requests
    in a row wins a prize and the second meets the quota. *)
Lemma spin_twice (pid : Z) (today_str : string) (db : DB) (g : G)
    (player : Player.t) :
  pid ≠ 0 → query_active_player db pid = Some player →
  Player.spins_per_day player = 1 →
  effective_spins_today today_str player = 0 →
  query_eligible_prizes db ≠ [] →
  ∃ prize db1 g1,
    spin uniform (Some pid) today_str db g = (Success prize 0, db1, g1) ∧
    spin uniform (Some pid) today_str db1 g1 = (QuotaReached, db1, g1).
Proof.
  intros Hpid Hq Hspd Heff Hne.
  destruct (weighted_random_choice uniform (query_eligible_prizes db) g)
    as [chosen g1] eqn:Hw.
  destruct chosen as [prize|]; cycle 1.
  { exfalso. apply Hne, (choose_eligible_None db g). now rewrite Hw. }
  set (dirty := Player.set_spins_today 1 (rollover today_str player)).
  exists prize, (commit_player dirty db), g1.
  assert (H1 : spin uniform (Some pid) today_str db g
               = (Success prize 0, commit_player dirty db, g1)).
  { unfold spin.
    rewrite (spin_handler_loaded pid today_str db g player Hpid Hq).
    rewrite Hspd, Heff. rewrite decide_False by lia.
    destruct (query_eligible_prizes db); [done|]. now rewrite Hw. }
  split; [done|].
  pose proof (query_active_player_Some _ _ _ Hq) as (_ & Hid & _).
  eapply spin_rejected; [done| |].
  - apply query_after_commit; [done|].
    unfold dirty. cbn [Player.id Player.set_spins_today].
    now destruct (rollover_frame today_str player) as (-> & _).
  - unfold dirty. cbn [Player.spins_today Player.last_spin_date
                        Player.set_spins_today].
    rewrite rollover_last_spin_date. unfold effective_spins_today.
    cbn. rewrite decide_True by done. lia.
Qed.

(** C7, as the code has it.  For a player with a quota of one and no spin
    yet today, and a prize to win: when the two requests are served one
    after the other, in either order, exactly one wins a prize and the
    other is rejected for the quota. *)
Theorem serial_spins_one_granted (pid : Z) (today_str : string) (db : DB)
    (g : G) (player : Player.t) (schedule : list Turn) :
  pid ≠ 0 → query_active_player db pid = Some player →
  Player.spins_per_day player = 1 →
  effective_spins_today today_str player = 0 →
  query_eligible_prizes db ≠ [] →
  schedule = [TurnA; TurnA; TurnB; TurnB] ∨
  schedule = [TurnB; TurnB; TurnA; TurnA] →
  ∃ ra rb,
    thread_a (run uniform today_str schedule (two_requests (Some pid) db g))
      = Finished ra ∧
    thread_b (run uniform today_str schedule (two_requests (Some pid) db g))
      = Finished rb ∧
    exactly_one_granted ra rb.
Proof.
  intros Hpid Hq Hspd Heff Hne Hs.
  destruct (spin_twice pid today_str db g player Hpid Hq Hspd Heff Hne)
    as (prize & db1 & g1 & H1 & H2).
  destruct Hs as [-> | ->].
  - rewrite run_serial_a, H1, H2. exists (Success prize 0), QuotaReached.
    repeat split. left. split; [|done]. unfold granted. eauto.
  - rewrite run_serial_b, H1, H2. exists QuotaReached, (Success prize 0).
    repeat split. right. split; [done|]. unfold granted. eauto.
Qed.

End Spin.

(** ** Runs on the sample data *)

(** C4. A player whose quota is negative and whose stored date is stale:
    the new-day branch of [spins_left_today] answers with the negative
    quota itself, not with zero, although the spin route rejects the
    player. *)
Theorem remaining_spins_negative_on_new_day :
  Player.spins_per_day carol ≤ 0 ∧
  Player.last_spin_date carol ≠ Some "2025-01-02" ∧
  Player.spins_left_today "2025-01-02" carol = -1 ∧
  (spin (constant_source (3 # 1)) (Some 3) "2025-01-02" sample_db O).1.1
  = QuotaReached.
Proof. split_and!; [done|done|reflexivity|reflexivity]. Qed.

(** C7, as stated.  Bob has a quota of one and no spin today; when both
    requests load his row before either commits, both win a prize.  And
    with no prize to win, neither request is granted, in any order. *)
Lemma concurrent_spins_both_granted :
  query_active_player sample_db 2 = Some bob ∧
  Player.spins_per_day bob = 1 ∧
  effective_spins_today "2025-01-01" bob = 0 ∧
  ¬ isolated (constant_source (3 # 1)) "2025-01-01" (Some 2) sample_db O ∧
  ¬ isolated (constant_source (3 # 1)) "2025-01-01" (Some 2) no_prize_db O.
Proof.
  split_and!; [reflexivity..| |].
  - intros Hiso.
    destruct (Hiso [TurnA; TurnB; TurnA; TurnB] _ _ eq_refl eq_refl)
      as [[_ Hb] | [Ha _]]; discriminate.
  - intros Hiso.
    destruct (Hiso [TurnA; TurnA; TurnB; TurnB] _ _ eq_refl eq_refl)
      as [[_ Hb] | [Ha _]]; discriminate.
Qed.

Lemma remaining_spins_by_date_witness :
  Player.spins_left_today "2025-01-02" alice = 1 ∧
  Player.spins_left_today "2025-01-02" (Player.set_spins_today 7 alice) = 1 ∧
  Player.spins_left_today "2025-01-01" alice = 0.
Proof.
  destruct (proj1 (remaining_spins_by_date "2025-01-02" alice)) as [H1 H2];
    [discriminate|].
  split; [exact H1|]. split; [exact (H2 7)|].
  exact (proj2 (remaining_spins_by_date "2025-01-01" alice) eq_refl).
Defined.

Lemma choose_prize_none_iff_no_weight_witness :
  ∃ p, (weighted_random_choice (constant_source (3 # 1))
          [prize_a; prize_b; prize_c] O).1 = Some p ∧
       p ∈ [prize_a; prize_b; prize_c].
Proof.
  apply (choose_prize_none_iff_no_weight (constant_source (3 # 1))
           [prize_a; prize_b; prize_c] O).
  simpl. lia.
Defined.

Lemma quota_rejection_keeps_state_witness :
  spin (constant_source (3 # 1)) (Some 1) "2025-01-01" sample_db O
  = (QuotaReached, sample_db, O) ∧
  spin_repeat (constant_source (3 # 1)) 3 (Some 1) "2025-01-01" sample_db O
  = ([QuotaReached; QuotaReached; QuotaReached], sample_db, O).
Proof.
  assert (Hpid : 1 ≠ 0) by lia.
  assert (Hquota : Player.spins_per_day alice
                   ≤ effective_spins_today "2025-01-01" alice)
    by (vm_compute; discriminate).
  destruct (quota_rejection_keeps_state (constant_source (3 # 1)) 1
              "2025-01-01" sample_db alice Hpid eq_refl Hquota)
    as (Hone & Hmany & _).
  split; [exact (Hone O)|exact (Hmany 3%nat O)].
Defined.

Lemma choose_prize_first_cumulative_witness :
  (weighted_random_choice (constant_source (inject_Z 15))
     [prize_a; prize_b; prize_c] O).1 = Some prize_c ∧
  (weighted_random_choice (constant_source (0 # 1))
     [prize_a; prize_b; prize_c] O).1 = Some prize_a.
Proof.
  split.
  - apply (proj1 (choose_prize_first_cumulative
                    (constant_source (inject_Z 15)))
             [prize_a; prize_b; prize_c] O 2%nat prize_c).
    + simpl. lia.
    + reflexivity.
    + vm_compute. discriminate.
    + intros j Hj. destruct j as [|[|j]]; [| |lia];
        vm_compute; intros Hc; apply Hc; reflexivity.
  - apply (proj2 (choose_prize_first_cumulative (constant_source (0 # 1)))
             prize_a prize_b prize_c O); reflexivity.
Defined.

Lemma spin_outcome_witness :
  (spin (constant_source (3 # 1)) (Some 2) "2025-01-01" sample_db O).1.1
  = Success prize_a 0.
Proof.
  assert (Hpid : 2 ≠ 0) by lia.
  destruct (spin_outcome (constant_source (3 # 1)) 2 "2025-01-01" sample_db O
              Hpid) as [_ Hfound].
  destruct (Hfound bob eq_refl) as [_ Hquota].
  destruct Hquota as [_ Hprize]; [vm_compute; reflexivity|].
  exact (Hprize prize_a eq_refl).
Defined.

Lemma serial_spins_one_granted_witness :
  ∃ ra rb,
    thread_a (run (constant_source (3 # 1)) "2025-01-01"
                [TurnA; TurnA; TurnB; TurnB]
                (two_requests (Some 2) sample_db O)) = Finished ra ∧
    thread_b (run (constant_source (3 # 1)) "2025-01-01"
                [TurnA; TurnA; TurnB; TurnB]
                (two_requests (Some 2) sample_db O)) = Finished rb ∧
    exactly_one_granted ra rb.
Proof.
  apply (serial_spins_one_granted (constant_source (3 # 1)) 2 "2025-01-01"
           sample_db O bob).
  - lia.
  - reflexivity.
  - reflexivity.
  - reflexivity.
  - vm_compute. discriminate.
  - left. reflexivity.
Defined.

Lemma choose_prize_pure_witness :
  (weighted_random_choice (constant_source (21 # 2))
     [prize_a; prize_b; prize_c] 4%nat).1 =
  (weighted_random_choice replay_source
     [prize_a; prize_b; prize_c] [42 # 4; 1 # 1]).1.
Proof.
  apply (choose_prize_pure (constant_source (21 # 2)) replay_source
           [prize_a; prize_b; prize_c] 4%nat [42 # 4; 1 # 1]).
  vm_compute. reflexivity.
Defined.

Lemma cannot_choose_prize_unreachable_witness :
  (weighted_random_choice (constant_source (3 # 1)) [prize_a; prize_c] O).1
  ≠ None.
Proof.
  apply (proj1 (cannot_choose_prize_unreachable (constant_source (3 # 1)))
           [prize_a; prize_c] O).
  - discriminate.
  - repeat constructor.
Defined.

Lemma spin_frame_witness :
  let db' :=
    (spin (constant_source (3 # 1)) (Some 2) "2025-01-01" sample_db O).1.2 in
  prizes db' = prizes sample_db ∧
  length (players db') = length (players sample_db) ∧
  players db' !! 0%nat = Some alice ∧
  players db' !! 2%nat = Some carol.
Proof.
  intros db'.
  destruct (spin_frame (constant_source (3 # 1)) (Some 2) "2025-01-01"
              sample_db db' O 1%nat prize_a 0) as (Hp & Hlen & Hrows).
  - unfold primary_key. apply (bool_decide_unpack _). vm_compute. exact I.
  - vm_compute. reflexivity.
  - split; [exact Hp|]. split; [exact Hlen|].
    split.
    + destruct (Hrows 0%nat alice eq_refl) as (row' & Hl & _ & _ & _ & _ & Hs & _).
      rewrite Hl. f_equal. apply Hs. discriminate.
    + destruct (Hrows 2%nat carol eq_refl) as (row' & Hl & _ & _ & _ & _ & Hs & _).
      rewrite Hl. f_equal. apply Hs. discriminate.
Defined.

(** ** The daily quota over a run of requests *)

Lemma count_granted_cons (resp : Response) (resps : list Response) :
  count_granted (resp :: resps) =
  (if decide (status_code resp = 200) then 1 else 0) + count_granted resps.
Proof.
  unfold count_granted. rewrite filter_cons.
  case_decide; cbn [length]; lia.
Qed.

Lemma commit_player_eligible (player : Player.t) (db : DB) :
  query_eligible_prizes (commit_player player db) = query_eligible_prizes db.
Proof. reflexivity. Qed.

Section Quota.

Context {G : Type}.
Variable uniform : Z → Z → G → Q * G.

(** One request of a loaded player: either it wins a prize and the stored
    usage of today goes up by one, or it fails and the store is as
    before. *)
Lemma spin_step (pid : Z) (today_str : string) (db : DB) (g : G)
    (player : Player.t) :
  pid ≠ 0 → query_active_player db pid = Some player →
  ∃ resp db' g',
    spin uniform (Some pid) today_str db g = (resp, db', g') ∧
    ((status_code resp = 200 ∧
      effective_spins_today today_str player < Player.spins_per_day player ∧
      query_eligible_prizes db' = query_eligible_prizes db ∧
      ∃ player',
        query_active_player db' pid = Some player' ∧
        Player.spins_per_day player' = Player.spins_per_day player ∧
        effective_spins_today today_str player'
        = effective_spins_today today_str player + 1) ∨
     (status_code resp ≠ 200 ∧ db' = db ∧
      (query_eligible_prizes db ≠ [] →
       Player.spins_per_day player
       ≤ effective_spins_today today_str player))).
Proof.
  intros Hpid Hq. unfold spin.
  rewrite (spin_handler_loaded uniform pid today_str db g player Hpid Hq).
  case_decide as Hquota.
  { eexists _, _, _. split; [reflexivity|]. right. by cbn. }
  destruct (query_eligible_prizes db) as [|p0 rest] eqn:He.
  { eexists _, _, _. split; [reflexivity|]. right. by cbn. }
  destruct (weighted_random_choice _ _ _) as [[prize|] g'] eqn:Hw.
  - eexists _, _, _. split; [reflexivity|]. left.
    cbn [close_session]. split_and!; [done|lia|by rewrite commit_player_eligible|].
    pose proof (query_active_player_Some _ _ _ Hq) as (_ & Hid & _).
    eexists. split.
    + apply query_after_commit; [done|].
      cbn [Player.id Player.set_spins_today].
      now destruct (rollover_frame today_str player) as (-> & _).
    + cbn [Player.spins_per_day Player.set_spins_today
           Player.set_last_spin_date Player.spins_today
           Player.last_spin_date].
      rewrite rollover_last_spin_date. split; [done|].
      unfold effective_spins_today at 1.
      cbn [Player.last_spin_date Player.spins_today].
      now rewrite decide_True by done.
  - exfalso. pose proof (choose_eligible_None uniform db g) as [Hn _].
    rewrite He, Hw in Hn. now specialize (Hn eq_refl).
Qed.

(** X1. Requests of one session served one after the other on one day win
    at most as many prizes as the quota leaves, [spins_per_day] minus the
    effective usage; and exactly that many, or all of them when there are
    fewer requests, when there is a prize to win. *)
Theorem serial_spins_within_quota (n : nat) (pid : Z) (today_str : string)
    (db : DB) (g : G) (player : Player.t) :
  pid ≠ 0 → query_active_player db pid = Some player →
  let won :=
    count_granted (spin_repeat uniform n (Some pid) today_str db g).1.1 in
  let quota_left :=
    Z.max 0 (Player.spins_per_day player
             - effective_spins_today today_str player) in
  won ≤ quota_left ∧
  (query_eligible_prizes db ≠ [] → won = Z.min (Z.of_nat n) quota_left).
Proof.
  intros Hpid. revert db g player.
  induction n as [|n IH]; intros db g player Hq won quota_left.
  { subst won quota_left. change (count_granted _) with 0.
    split; [lia|]. intros _. lia. }
  destruct (spin_step pid today_str db g player Hpid Hq)
    as (resp & db' & g' & Hspin & Hcase).
  subst won. cbn [spin_repeat]. rewrite Hspin.
  destruct (spin_repeat uniform n (Some pid) today_str db' g')
    as [[resps db''] g''] eqn:Hrest.
  cbn [fst]. rewrite count_granted_cons.
  destruct Hcase as [(Hok & Hquota & Hel & player' & Hq' & Hspd & Heff)
                    | (Hfail & -> & Hwhy)].
  - specialize (IH db' g' player' Hq'). rewrite Hrest in IH. cbn [fst] in IH.
    rewrite Hspd, Heff, Hel in IH. destruct IH as [IHle IHeq].
    rewrite decide_True by done. subst quota_left. split; [lia|].
    intros Hne. rewrite (IHeq Hne). lia.
  - specialize (IH db g' player Hq). rewrite Hrest in IH. cbn [fst] in IH.
    destruct IH as [IHle IHeq].
    rewrite decide_False by done. subst quota_left. split; [lia|].
    intros Hne. rewrite (IHeq Hne). specialize (Hwhy Hne). lia.
Qed.

(** X2. A new day gives the whole quota back: when the stored date is not
    today, the quota is at least one and there is a prize to win, the
    request wins a prize and leaves [spins_per_day - 1] spins, whatever
    the stored counter. *)
Theorem spin_on_new_day (pid : Z) (today_str : string) (db : DB) (g : G)
    (player : Player.t) :
  pid ≠ 0 → query_active_player db pid = Some player →
  Player.last_spin_date player ≠ Some today_str →
  1 ≤ Player.spins_per_day player →
  query_eligible_prizes db ≠ [] →
  ∃ prize,
    (spin uniform (Some pid) today_str db g).1.1
    = Success prize (Player.spins_per_day player - 1) ∧
    prize ∈ query_eligible_prizes db.
Proof.
  intros Hpid Hq Hdate Hspd Hne. unfold spin.
  rewrite (spin_handler_loaded uniform pid today_str db g player Hpid Hq).
  assert (Heff : effective_spins_today today_str player = 0)
    by (unfold effective_spins_today; now rewrite decide_False).
  rewrite Heff. rewrite decide_False by lia.
  destruct (query_eligible_prizes db) as [|p0 rest] eqn:He; [done|].
  destruct (weighted_random_choice _ _ _) as [[prize|] g'] eqn:Hw.
  - exists prize. cbn [fst]. split; [f_equal; lia|].
    apply (weighted_random_choice_elem_of uniform _ g). now rewrite Hw.
  - exfalso. pose proof (choose_eligible_None uniform db g) as [Hn _].
    rewrite He, Hw in Hn. now specialize (Hn eq_refl).
Qed.

End Quota.

(** ** Properties of the status and prize-list routes *)

Lemma get_prizes_elem_of (active_only : option string) (db : DB) (p : Prize.t) :
  p ∈ get_prizes active_only db ↔
  p ∈ prizes db ∧ (active_only = Some "1" → Prize.active p = true).
Proof.
  unfold get_prizes. rewrite (merge_sort_Permutation by_id).
  case_decide as Ha.
  - rewrite list_elem_of_filter. tauto.
  - tauto.
Qed.

Section Status.

Context {G : Type}.
Variable uniform : Z → Z → G → Q * G.

(** X3. The status route reports spins left exactly when the spin route
    would let the session through its login, account and quota checks:
    the spin then either wins a prize or finds no prize to win. *)
Theorem status_agrees_with_spin (sess : Session) (today_str : string)
    (db : DB) (g : G) :
  0 < status_spins_left_today (player_status sess today_str db).1 ↔
  granted (spin_route uniform sess today_str db g).1.1 ∨
  (spin_route uniform sess today_str db g).1.1 = NoActivePrizes.
Proof.
  unfold spin_route, player_status. rewrite spin_response.
  destruct (sess_player_id sess) as [pid|]; cycle 1.
  { cbn. split; [lia|]. intros [(? & ? & ?)|?]; done. }
  destruct (decide (pid = 0)) as [->|Hpid].
  { cbn. split; [lia|]. intros [(? & ? & ?)|?]; done. }
  destruct (query_active_player db pid) as [player|] eqn:Hq; cycle 1.
  { unfold spin_handler. rewrite decide_False by done. rewrite Hq. cbn.
    split; [lia|]. intros [(? & ? & ?)|?]; done. }
  rewrite (spin_handler_loaded uniform pid today_str db g player Hpid Hq).
  cbn [fst status_spins_left_today].
  unfold Player.spins_left_today, effective_spins_today.
  destruct (decide (Player.last_spin_date player = Some today_str)) as [Hd|Hd].
  - rewrite (decide_False (P := Player.last_spin_date player ≠ Some today_str))
      by tauto.
    case_decide as Hquota.
    + cbn. split; [lia|]. intros [(? & ? & ?)|?]; done.
    + split; [|lia]. intros _.
      destruct (query_eligible_prizes db) as [|p0 rest] eqn:He; [by right|].
      destruct (weighted_random_choice _ _ _) as [[prize|] g'] eqn:Hw.
      * left. cbn. unfold granted. eauto.
      * exfalso. pose proof (choose_eligible_None uniform db g) as [Hn _].
        rewrite He, Hw in Hn. now specialize (Hn eq_refl).
  - rewrite (decide_True (P := Player.last_spin_date player ≠ Some today_str))
      by done.
    case_decide as Hquota.
    + cbn. split; [lia|]. intros [(? & ? & ?)|?]; done.
    + split; [|lia]. intros _.
      destruct (query_eligible_prizes db) as [|p0 rest] eqn:He; [by right|].
      destruct (weighted_random_choice _ _ _) as [[prize|] g'] eqn:Hw.
      * left. cbn. unfold granted. eauto.
      * exfalso. pose proof (choose_eligible_None uniform db g) as [Hn _].
        rewrite He, Hw in Hn. now specialize (Hn eq_refl).
Qed.

(** X4. After a spin that won a prize, the status route reports the same
    session as authenticated, for the same player, with exactly the number
    of spins left that the spin response carried. *)
Theorem status_after_spin (sess : Session) (today_str : string) (db db' : DB)
    (g g' : G) (prize : Prize.t) (left : Z) :
  spin_route uniform sess today_str db g = (Success prize left, db', g') →
  ∃ pid name,
    sess_player_id sess = Some pid ∧
    player_status sess today_str db'
    = (mkStatus true left (Some (pid, name)), sess).
Proof.
  unfold spin_route, spin.
  destruct (spin_handler _ _ _ _ _) as [[resp dirty] g1] eqn:Hh.
  intros [= -> <- <-].
  apply spin_handler_granted in Hh
    as (k & player & Hsess & Hk & Hq & Hquota & Hw & -> & ->).
  exists k, (Player.name player). split; [done|].
  pose proof (query_active_player_Some _ _ _ Hq) as (_ & Hid & _).
  unfold player_status. rewrite Hsess, decide_False by done.
  cbn [close_session].
  rewrite (query_after_commit db k player _ Hq); cycle 1.
  { cbn [Player.id Player.set_spins_today].
    now destruct (rollover_frame today_str player) as (-> & _). }
  cbn [Player.spins_today Player.last_spin_date Player.set_spins_today
       Player.set_last_spin_date Player.id Player.name].
  rewrite rollover_last_spin_date. do 2 f_equal; [|congruence].
  unfold Player.spins_left_today.
  cbn [Player.last_spin_date Player.spins_per_day Player.spins_today].
  rewrite decide_False by tauto. cbn. lia.
Qed.

(** X5. A prize won by a spin is one of the prizes that [/api/prizes]
    lists, with or without [active_only=1], before and after the spin; it
    is active and its weight is positive. *)
Theorem spin_prize_listed (sess : Session) (today_str : string) (db db' : DB)
    (g g' : G) (prize : Prize.t) (left : Z) (active_only : option string) :
  spin_route uniform sess today_str db g = (Success prize left, db', g') →
  prize ∈ get_prizes active_only db ∧
  prize ∈ get_prizes active_only db' ∧
  Prize.active prize = true ∧ 0 < Prize.weight prize.
Proof.
  unfold spin_route, spin.
  destruct (spin_handler _ _ _ _ _) as [[resp dirty] g1] eqn:Hh.
  intros [= -> <- <-].
  apply spin_handler_granted in Hh
    as (k & player & Hsess & Hk & Hq & Hquota & Hw & -> & ->).
  assert (Hin : prize ∈ query_eligible_prizes db).
  { apply (weighted_random_choice_elem_of uniform _ g). now rewrite Hw. }
  apply query_eligible_prizes_elem_of in Hin as (Hin & Hact & Hpos).
  split_and!; [| |done|done]; apply get_prizes_elem_of; done.
Qed.

End Status.

(** X6. [/api/prizes] answers in non-decreasing order of [id]; without
    the filter it lists every row of the table exactly once, with
    [active_only=1] exactly the active rows, and any other value of
    [active_only] does not filter. *)
Theorem get_prizes_sorted_complete (active_only : option string) (db : DB) :
  Sorted by_id (get_prizes active_only db) ∧
  get_prizes None db ≡ₚ prizes db ∧
  get_prizes (Some "1") db
    ≡ₚ filter (λ p, Prize.active p = true) (prizes db) ∧
  (active_only ≠ Some "1" → get_prizes active_only db = get_prizes None db).
Proof.
  assert (Total by_id) by (intros p q; unfold by_id; lia).
  split_and!.
  - unfold get_prizes. now apply (Sorted_merge_sort by_id).
  - unfold get_prizes. rewrite decide_False by done.
    apply (merge_sort_Permutation by_id).
  - unfold get_prizes. rewrite decide_True by done.
    apply (merge_sort_Permutation by_id).
  - intros Ha. unfold get_prizes. now rewrite !decide_False by done.
Qed.

(** ** Properties of the auto-login route *)

Lemma query_active_player_primary (db : DB) (p : Player.t) :
  primary_key db → p ∈ players db → Player.active p = true →
  query_active_player db (Player.id p) = Some p.
Proof.
  intros Hpk Hin Hact.
  destruct (query_active_player db (Player.id p)) as [q|] eqn:Hq.
  - apply query_active_player_Some in Hq as (Hq & Hid & _).
    f_equal. now apply (primary_key_inj db).
  - rewrite query_active_player_None in Hq.
    rewrite (Hq p Hin eq_refl) in Hact. done.
Qed.


Section AutoLoginProperties.

Context {G : Type}.
Variable uniform : Z → Z → G → Q * G.
Variable randbelow : nat → G → nat * G.


Lemma pick_account_redirect (sess sess' : Session) (today_str : string)
    (db db' : DB) (g g' : G) :
  pick_account randbelow sess today_str db g = (RedirectHome, sess', db', g') →
  db' = db ∧
  ∃ chosen,
    sess' = set_player_id (Player.id chosen) sess ∧
    chosen ∈ players db ∧ Player.active chosen = true ∧
    available today_str chosen.
Proof.
  unfold pick_account.
  destruct (filter (available today_str) _) as [|x l] eqn:Hf; [done|].
  destruct (randbelow _ g) as [i g1].
  destruct ((x :: l) !! i) as [chosen|] eqn:Hi; [|done].
  intros [= <- <- <-]. split; [done|]. exists chosen. split; [done|].
  apply list_elem_of_lookup_2 in Hi. rewrite <- Hf in Hi.
  apply list_elem_of_filter in Hi as [Hav Hi].
  apply list_elem_of_filter in Hi as [Hact Hi]. done.
Qed.


(** X8. On a store whose player ids are distinct and non-zero and whose
    active players all have a quota of at least one: when auto-login sends
    the client to the wheel, a spin with the session and store it leaves
    passes the login, account and quota checks, so it wins a prize unless
    there is none to win. *)
Theorem auto_login_then_spin (sess sess' : Session) (today_str : string)
    (db db' : DB) (g g' g2 : G) :
  primary_key db →
  (∀ p, p ∈ players db → Player.id p ≠ 0) →
  (∀ p, p ∈ players db → Player.active p = true →
        1 ≤ Player.spins_per_day p) →
  auto_login randbelow sess today_str db g = (RedirectHome, sess', db', g') →
  granted (spin_route uniform sess' today_str db' g2).1.1 ∨
  (spin_route uniform sess' today_str db' g2).1.1 = NoActivePrizes.
Proof.
  intros Hpk Hids Hspd Hlogin.
  assert (Hgo : ∀ (pid : Z) (player : Player.t),
    sess_player_id sess' = Some pid → pid ≠ 0 →
    query_active_player db' pid = Some player →
    effective_spins_today today_str player < Player.spins_per_day player →
    granted (spin_route uniform sess' today_str db' g2).1.1 ∨
    (spin_route uniform sess' today_str db' g2).1.1 = NoActivePrizes).
  { intros pid player Hs Hpid Hq Hquota. unfold spin_route.
    rewrite spin_response, Hs.
    rewrite (spin_handler_loaded uniform pid today_str db' g2 player Hpid Hq).
    rewrite decide_False by lia.
    destruct (query_eligible_prizes db') as [|p0 rest] eqn:He; [by right|].
    destruct (weighted_random_choice _ _ _) as [[prize|] g3] eqn:Hw.
    - left. cbn. unfold granted. eauto.
    - exfalso. pose proof (choose_eligible_None uniform db' g2) as [Hn _].
      rewrite He, Hw in Hn. now specialize (Hn eq_refl). }
  assert (Hpick : ∀ s, pick_account randbelow s today_str db g
                       = (RedirectHome, sess', db', g') →
    granted (spin_route uniform sess' today_str db' g2).1.1 ∨
    (spin_route uniform sess' today_str db' g2).1.1 = NoActivePrizes).
  { intros s Hp. apply pick_account_redirect in Hp
      as (-> & chosen & -> & Hin & Hact & Hav).
    apply (Hgo (Player.id chosen) chosen); [done|by apply Hids| |].
    - now apply query_active_player_primary.
    - specialize (Hspd chosen Hin Hact).
      unfold effective_spins_today. destruct Hav as [Hd|Hu].
      + rewrite decide_False by done. lia.
      + case_decide; lia. }
  unfold auto_login in Hlogin.
  destruct (sess_player_id sess) as [pid|] eqn:Hsess; [|eauto].
  destruct (decide (pid = 0)) as [->|Hpid]; [eauto|].
  destruct (query_active_player db pid) as [player|] eqn:Hq; [|eauto].
  pose proof (query_active_player_Some _ _ _ Hq) as (_ & Hid & _).
  destruct (decide (Player.last_spin_date player ≠ Some today_str))
    as [Hdate|Hdate].
  - destruct (decide (_ < _)) as [Hlt|]; [|done].
    injection Hlogin as <- <- <-.
    eapply (Hgo pid); [done|done| |].
    + apply query_after_commit; [done|]. cbn. done.
    + cbn in Hlt. unfold effective_spins_today. cbn.
      rewrite decide_True by done. done.
  - destruct (decide (_ < _)) as [Hlt|]; [|done].
    injection Hlogin as <- <- <-.
    eapply (Hgo pid); [done|done|done|].
    unfold effective_spins_today. rewrite decide_True; [done|].
    destruct (decide (Player.last_spin_date player = Some today_str)); tauto.
Qed.

(** X9. When [random.choice] indexes inside its list, auto-login never
    fails on the index; it answers that no account is left only when every
    active player has today's date and a counter that has reached the
    quota; and for a client without a player in the session it does
    answer so whenever that holds. *)
Theorem auto_login_no_account_left (sess : Session) (today_str : string)
    (db : DB) (g : G) :
  (∀ n g0, (0 < n)%nat → ((randbelow n g0).1 < n)%nat) →
  let resp := (auto_login randbelow sess today_str db g).1.1.1 in
  let used_up :=
    ∀ p, p ∈ players db → Player.active p = true →
         Player.last_spin_date p = Some today_str ∧
         Player.spins_per_day p ≤ Player.spins_today p in
  resp ≠ ChoiceIndexError ∧
  (resp = NoAccountLeft → used_up) ∧
  (sess_player_id sess = None → used_up → resp = NoAccountLeft).
Proof.
  intros Hrand resp used_up.
  assert (Hnil : filter (available today_str)
                   (filter (λ p, Player.active p = true) (players db)) = []
                 ↔ used_up).
  { subst used_up. split.
    - intros Hf p Hin Hact.
      assert (Hna : ¬ available today_str p).
      { intros Hav. eapply (filter_nil_not_elem_of _ _ p Hf Hav).
        apply list_elem_of_filter. done. }
      unfold available in Hna.
      destruct (decide (Player.last_spin_date p = Some today_str));
        split; [done|lia|tauto|lia].
    - intros Hall. destruct (filter (available today_str) _) as [|x l] eqn:Hf;
        [done|].
      assert (Hx : x ∈ filter (available today_str)
                (filter (λ p, Player.active p = true) (players db)))
        by (rewrite Hf; left).
      apply list_elem_of_filter in Hx as [Hav Hx].
      apply list_elem_of_filter in Hx as [Hact Hx].
      destruct (Hall x Hx Hact) as [Hd Hu]. destruct Hav; [done|lia]. }
  assert (Hpick : ∀ s,
    (pick_account randbelow s today_str db g).1.1.1 ≠ ChoiceIndexError ∧
    ((pick_account randbelow s today_str db g).1.1.1 = NoAccountLeft
     ↔ used_up)).
  { intros s. rewrite <- Hnil. unfold pick_account.
    destruct (filter (available today_str) _) as [|x l] eqn:Hf; [done|].
    specialize (Hrand (length (x :: l)) g ltac:(cbn; lia)).
    destruct (randbelow _ g) as [i g1]. cbn [fst] in Hrand.
    destruct ((x :: l) !! i) as [chosen|] eqn:Hi; [done|].
    apply lookup_ge_None in Hi. lia. }
  subst resp. unfold auto_login.
  destruct (sess_player_id sess) as [pid|] eqn:Hsess; cycle 1.
  { destruct (Hpick sess) as [? [? ?]]. auto. }
  case_decide.
  { destruct (Hpick sess) as [? [? ?]]. split_and!; [done|done|done]. }
  destruct (query_active_player db pid) as [player|] eqn:Hq; cycle 1.
  { destruct (Hpick (pop_player_id sess)) as [? [? ?]].
    split_and!; [done|done|done]. }
  repeat case_decide; split_and!; done.
Qed.

End AutoLoginProperties.

(** ** Properties of the administration routes *)



Lemma py_or_str_default (key : option string) :
  default "" (py_or_str key (Some "")) = default "" key.
Proof. destruct key as [s|]; [|done]. cbn. now case_decide. Qed.

Lemma check_admin_cases (ADMIN_KEY : string) (sess : Session)
    (header arg : option string) :
  check_admin ADMIN_KEY sess header arg = true ↔
  sess_is_admin sess = true ∨
  (ADMIN_KEY ≠ "" ∧
   (header = Some ADMIN_KEY ∨
    ((header = None ∨ header = Some "") ∧ arg = Some ADMIN_KEY))).
Proof.
  unfold check_admin, is_admin.
  destruct (sess_is_admin sess); [tauto|].
  destruct header as [h|]; cbn.
  - destruct (decide (h = "")) as [->|Hh].
    + destruct arg as [a|]; [|intuition congruence].
      case_decide; intuition (subst; congruence).
    + case_decide; intuition (subst; congruence).
  - destruct arg as [a|]; [|intuition congruence].
    case_decide; intuition (subst; congruence).
Qed.

Lemma query_prize_None (db : DB) (pid : Z) :
  query_prize db pid = None ↔ ∀ q, q ∈ prizes db → Prize.id q ≠ pid.
Proof.
  unfold query_prize. rewrite head_None. split.
  - intros Hnil q Hin Hid. eapply (filter_nil_not_elem_of _ _ q Hnil); eauto.
  - intros Hall. destruct (filter _ _) as [|p rest] eqn:Hf; [done|].
    assert (Hp : p ∈ filter (λ p, Prize.id p = pid) (prizes db))
      by (rewrite Hf; left).
    apply list_elem_of_filter in Hp as [Hid Hin]. now destruct (Hall p Hin).
Qed.

Lemma query_prize_Some (db : DB) (pid : Z) (p : Prize.t) :
  query_prize db pid = Some p → p ∈ prizes db ∧ Prize.id p = pid.
Proof.
  unfold query_prize. intros Hh.
  apply head_Some_elem_of, list_elem_of_filter in Hh. tauto.
Qed.

(** After [commit_prize p], the rows with the key of [p] are [p]. *)
Lemma commit_prize_elem_of (p q : Prize.t) (db : DB) :
  q ∈ prizes (commit_prize p db) →
  (q ∈ prizes db ∧ Prize.id q ≠ Prize.id p) ∨ q = p.
Proof.
  cbn [prizes commit_prize]. intros Hq.
  apply list_elem_of_fmap in Hq as (row & -> & Hrow).
  case_decide as Hid; [right|by left].
  destruct p; cbn in *. now subst.
Qed.


(** X10. A request passes [check_admin] exactly when the session is an
    admin session, or [ADMIN_KEY] is not empty and is given in the header,
    or in the query argument while the header is absent or empty: a
    non-empty header decides alone, and an empty [ADMIN_KEY] is matched by
    no key. *)
Theorem check_admin_iff (ADMIN_KEY : string) (sess : Session)
    (header arg : option string) :
  check_admin ADMIN_KEY sess header arg = true ↔
  sess_is_admin sess = true ∨
  (ADMIN_KEY ≠ "" ∧
   (header = Some ADMIN_KEY ∨
    ((header = None ∨ header = Some "") ∧ arg = Some ADMIN_KEY))).
Proof. apply check_admin_cases. Qed.

(** X11. Logging in with the admin key and logging out again: after the
    login every admin check passes without a key and the admin page is
    served; after the logout a request without a key is refused and the
    admin page redirects to the login page.  The player of the session is
    kept throughout. *)
Theorem admin_login_logout (ADMIN_KEY : string) (strip : string → string)
    (key : option string) (sess : Session) :
  ADMIN_KEY ≠ "" → strip (default "" key) = ADMIN_KEY →
  let sess1 := (admin_login_api ADMIN_KEY strip key sess).2 in
  let sess2 := admin_logout_api sess1 in
  (admin_login_api ADMIN_KEY strip key sess).1 = LoginOk ∧
  (∀ header arg, check_admin ADMIN_KEY sess1 header arg = true) ∧
  admin_page sess1 = SendFile "admin.html" ∧
  admin_login_page sess1 = Redirect "/admin" ∧
  check_admin ADMIN_KEY sess2 None None = false ∧
  admin_page sess2 = Redirect "/admin/login" ∧
  admin_login_page sess2 = SendFile "login.html" ∧
  sess_player_id sess1 = sess_player_id sess ∧
  sess_player_id sess2 = sess_player_id sess.
Proof.
  intros Hne Hkey. unfold admin_login_api.
  rewrite py_or_str_default, Hkey.
  rewrite decide_False by done.
  rewrite (decide_False (P := ADMIN_KEY ≠ ADMIN_KEY)) by tauto.
  cbn. split_and!; done.
Qed.

(** X12. A login attempt with a wrong key removes the admin flag from the
    session, so it ends an admin session that was open; an attempt with a
    missing or blank key leaves the session as it was. *)
Theorem admin_login_failure (ADMIN_KEY : string) (strip : string → string)
    (key : option string) (sess : Session) :
  (strip (default "" key) = "" →
     admin_login_api ADMIN_KEY strip key sess = (LoginKeyMissing, sess)) ∧
  (strip (default "" key) ≠ "" → strip (default "" key) ≠ ADMIN_KEY →
     (admin_login_api ADMIN_KEY strip key sess).1 = LoginKeyWrong ∧
     check_admin ADMIN_KEY (admin_login_api ADMIN_KEY strip key sess).2
       None None = false ∧
     admin_page (admin_login_api ADMIN_KEY strip key sess).2
     = Redirect "/admin/login").
Proof.
  unfold admin_login_api. rewrite py_or_str_default. split.
  - intros ->. now rewrite decide_True.
  - intros Hne Hwrong. rewrite decide_False by done.
    now rewrite decide_True by done.
Qed.

Section AdminProperties.

Context {G : Type}.
Variable uniform : Z → Z → G → Q * G.
Variable ADMIN_KEY : string.

(** A prize won by a spin is a row of the prize table that is active and
    has a positive weight. *)
Lemma spin_awards_eligible (pid : option Z) (today_str : string) (db db' : DB)
    (g g' : G) (prize : Prize.t) (left : Z) :
  spin uniform pid today_str db g = (Success prize left, db', g') →
  prize ∈ prizes db ∧ Prize.active prize = true ∧ 0 < Prize.weight prize.
Proof.
  unfold spin.
  destruct (spin_handler _ _ _ _ _) as [[resp dirty] g1] eqn:Hh.
  intros [= -> <- <-].
  apply spin_handler_granted in Hh
    as (k & player & Hsess & Hk & Hq & Hquota & Hw & -> & ->).
  apply query_eligible_prizes_elem_of.
  apply (weighted_random_choice_elem_of uniform _ g). now rewrite Hw.
Qed.

(** X13. Without an admin session, a request whose header and query
    argument both differ from [ADMIN_KEY] is refused by each of the three
    prize routes, and the store is left as it was. *)
Theorem admin_routes_refuse_without_key (sess : Session)
    (header arg : option string) (pid new_id : Z) (name : option string)
    (weight : Field Z) (active : option bool) (db : DB) :
  sess_is_admin sess = false →
  header ≠ Some ADMIN_KEY → arg ≠ Some ADMIN_KEY →
  admin_create_prize ADMIN_KEY sess header arg name weight active new_id db
  = (Unauthorized, db) ∧
  admin_update_prize ADMIN_KEY sess header arg pid name weight active db
  = (Unauthorized, db) ∧
  admin_delete_prize ADMIN_KEY sess header arg pid db = (Unauthorized, db).
Proof using ADMIN_KEY.
  intros Hs Hh Ha.
  assert (Hc : check_admin ADMIN_KEY sess header arg = false).
  { destruct (check_admin ADMIN_KEY sess header arg) eqn:Hc; [|done].
    apply check_admin_cases in Hc.
    destruct Hc as [Hc|(_ & [Hc|[_ Hc]])]; congruence. }
  unfold admin_create_prize, admin_update_prize, admin_delete_prize.
  now rewrite Hc.
Qed.

(** X14. A prize request that does not answer [Created], [Updated] or
    [Deleted] leaves the store as it was: a refused request, a missing
    name, an unknown id, or a weight that [int] rejects changes nothing,
    also when the name of the body was already assigned. *)
Theorem admin_failure_keeps_store (sess : Session)
    (header arg : option string) (pid new_id : Z) (name : option string)
    (weight : Field Z) (active : option bool) (db : DB) :
  let created :=
    admin_create_prize ADMIN_KEY sess header arg name weight active new_id db in
  let updated :=
    admin_update_prize ADMIN_KEY sess header arg pid name weight active db in
  let deleted := admin_delete_prize ADMIN_KEY sess header arg pid db in
  ((∀ p, created.1 ≠ Created p) → created.2 = db) ∧
  ((∀ p, updated.1 ≠ Updated p) → updated.2 = db) ∧
  (deleted.1 ≠ Deleted → deleted.2 = db) ∧
  (weight = Raises → created.2 = db ∧ updated.2 = db).
Proof.
  cbn zeta.
  unfold admin_create_prize, admin_update_prize, admin_delete_prize.
  destruct (check_admin ADMIN_KEY sess header arg); cbn [negb]; [|done].
  split_and!.
  - destruct (py_or_str name None); [|done].
    destruct weight; cbn; intros Hn; first [done | exfalso; by eapply Hn].
  - destruct (query_prize db pid); [|done].
    destruct weight; cbn; intros Hn; first [done | exfalso; by eapply Hn].
  - now destruct (query_prize db pid).
  - intros ->. destruct (py_or_str name None), (query_prize db pid); done.
Qed.

(** X15. An authorised request for an id that no row of the prize table
    carries is answered with [PrizeNotFound] by the update and the delete
    route. *)
Theorem admin_unknown_prize (sess : Session) (header arg : option string)
    (pid : Z) (name : option string) (weight : Field Z)
    (active : option bool) (db : DB) :
  check_admin ADMIN_KEY sess header arg = true →
  (∀ q, q ∈ prizes db → Prize.id q ≠ pid) →
  admin_update_prize ADMIN_KEY sess header arg pid name weight active db
  = (PrizeNotFound, db) ∧
  admin_delete_prize ADMIN_KEY sess header arg pid db = (PrizeNotFound, db).
Proof.
  intros Hc Hall. apply query_prize_None in Hall.
  unfold admin_update_prize, admin_delete_prize. now rewrite Hc, Hall.
Qed.

(** X16. An authorised delete of an id in the table removes every row with
    that id and nothing else: the other prizes and the players are kept,
    a second delete answers [PrizeNotFound], and no later spin wins a
    prize with that id. *)
Theorem admin_delete_prize_effect (sess : Session)
    (header arg : option string) (pid : Z) (db : DB) (p : Prize.t) :
  check_admin ADMIN_KEY sess header arg = true →
  query_prize db pid = Some p →
  let db' := (admin_delete_prize ADMIN_KEY sess header arg pid db).2 in
  (admin_delete_prize ADMIN_KEY sess header arg pid db).1 = Deleted ∧
  players db' = players db ∧
  (∀ q, q ∈ prizes db' ↔ q ∈ prizes db ∧ Prize.id q ≠ pid) ∧
  admin_delete_prize ADMIN_KEY sess header arg pid db' = (PrizeNotFound, db') ∧
  (∀ player_id today_str g prize left db'' g',
     spin uniform player_id today_str db' g = (Success prize left, db'', g') →
     Prize.id prize ≠ pid).
Proof.
  intros Hc Hq. pose proof (query_prize_Some _ _ _ Hq) as [_ Hid].
  unfold admin_delete_prize. rewrite Hc, Hq. cbn [negb fst snd].
  assert (Hrows : ∀ q, q ∈ prizes (delete_prize p db)
                       ↔ q ∈ prizes db ∧ Prize.id q ≠ pid).
  { intros q. cbn [prizes delete_prize]. rewrite list_elem_of_filter, Hid.
    tauto. }
  assert (Hgone : query_prize (delete_prize p db) pid = None).
  { apply query_prize_None. intros q Hin. now apply Hrows in Hin. }
  split_and!; [done|done|done| |].
  - now rewrite Hgone.
  - intros player_id today_str g prize left db'' g' Hspin.
    apply spin_awards_eligible in Hspin as (Hin & _). now apply Hrows in Hin.
Qed.


(** X18. After an authorised update, a spin that wins a prize with the
    updated id wins the row as updated; so a prize set inactive or given a
    weight of zero or less is not won any more. *)
Theorem admin_update_then_spin (sess : Session)
    (header arg : option string) (pid : Z) (name : option string)
    (weight : Field Z) (active : option bool) (db db' : DB) (p' : Prize.t)
    (player_id : option Z) (today_str : string) (g g' : G) (db'' : DB)
    (prize : Prize.t) (left : Z) :
  admin_update_prize ADMIN_KEY sess header arg pid name weight active db
  = (Updated p', db') →
  spin uniform player_id today_str db' g = (Success prize left, db'', g') →
  Prize.id prize = pid →
  prize = p' ∧ Prize.active p' = true ∧ 0 < Prize.weight p'.
Proof.
  unfold admin_update_prize.
  destruct (check_admin ADMIN_KEY sess header arg); cbn [negb]; [|done].
  destruct (query_prize db pid) as [p|] eqn:Hq; [|done].
  pose proof (query_prize_Some _ _ _ Hq) as [_ Hid].
  set (p1 := match name with Some n => _ | None => p end).
  set (p2 := match weight with Given w => _ | _ => p1 end).
  set (p3 := match active with Some a => _ | None => p2 end).
  assert (Hid3 : Prize.id p3 = pid)
    by (subst p3 p2 p1; destruct name, weight, active; done).
  intros Hupd Hspin Hprize.
  assert (Hdb : p' = p3 ∧ db' = commit_prize p3 db)
    by (destruct weight; naive_solver).
  destruct Hdb as [-> ->].
  apply spin_awards_eligible in Hspin as (Hin & Hact & Hpos).
  apply commit_prize_elem_of in Hin as [[_ Hne]| ->]; [congruence|done].
Qed.



End AdminProperties.

(** ** Properties of the start-up seeding *)

Lemma seed_players_lookup (key : nat → Z) (n : nat) (p : Player.t) :
  seed_players key !! n = Some p ↔
  (n < 100)%nat ∧
  p = Player.mk (key n) (Some ("User #" +:+ pretty (1 + Z.of_nat n))) 1 None 0
        true.
Proof.
  unfold seed_players. rewrite list_lookup_imap_Some. split.
  - intros (i & Hi & ->). apply lookup_seqZ in Hi as [-> Hn]. split; [lia|done].
  - intros [Hn ->]. exists (1 + Z.of_nat n). split; [|done].
    apply lookup_seqZ. lia.
Qed.

Lemma seed_players_elem_of (key : nat → Z) (p : Player.t) :
  p ∈ seed_players key →
  Player.spins_per_day p = 1 ∧ Player.last_spin_date p = None ∧
  Player.spins_today p = 0 ∧ Player.active p = true.
Proof.
  intros Hin. apply list_elem_of_lookup in Hin as [n Hn].
  apply seed_players_lookup in Hn as [_ ->]. done.
Qed.

Lemma seed_prizes_lookup (key : nat → Z) (n : nat) (p : Prize.t) :
  seed_prizes key !! n = Some p →
  Prize.id p = key n ∧ Prize.active p = true ∧ 0 < Prize.weight p.
Proof.
  unfold seed_prizes. rewrite list_lookup_imap_Some.
  intros ([[name weight] active] & Hn & ->).
  do 8 (destruct n as [|n]; [injection Hn as <- <- <-; cbn; split_and!; done|]).
  done.
Qed.

(** X21. Seeding is idempotent and never overwrites: after [init_db]
    both tables are non-empty, a table that already had rows is exactly as
    it was, and a second [init_db], whatever keys the database would hand
    out, changes nothing. *)
Theorem init_db_idempotent (prize_key player_key prize_key' player_key' : nat → Z)
    (db : DB) :
  let db1 := init_db prize_key player_key db in
  players db1 ≠ [] ∧ prizes db1 ≠ [] ∧
  (players db ≠ [] → players db1 = players db) ∧
  (prizes db ≠ [] → prizes db1 = prizes db) ∧
  init_db prize_key' player_key' db1 = db1.
Proof.
  cbn zeta.
  assert (Hpl : ∀ (l : list Player.t), l ≠ [] → length l ≠ 0%nat)
    by (intros [|? ?]; done).
  assert (Hpr : ∀ (l : list Prize.t), l ≠ [] → length l ≠ 0%nat)
    by (intros [|? ?]; done).
  assert (H1 : players (init_db prize_key player_key db) ≠ []).
  { unfold init_db. cbn [players]. case_decide as Hl; [done|].
    intros Hnil. now rewrite Hnil in Hl. }
  assert (H2 : prizes (init_db prize_key player_key db) ≠ []).
  { unfold init_db. cbn [prizes]. case_decide as Hl; [done|].
    intros Hnil. now rewrite Hnil in Hl. }
  split_and!; [done|done| | |].
  - intros Hne. unfold init_db. cbn [players].
    now rewrite decide_False by now apply Hpl.
  - intros Hne. unfold init_db. cbn [prizes].
    now rewrite decide_False by now apply Hpr.
  - unfold init_db at 1.
    rewrite (decide_False (P := length (players _) = 0%nat)) by now apply Hpl.
    rewrite (decide_False (P := length (prizes _) = 0%nat)) by now apply Hpr.
    now destruct (init_db prize_key player_key db).
Qed.

(** X22. When the database hands out distinct keys, the seeded tables
    satisfy their primary-key constraints: all 100 players and all 8
    prizes are stored under pairwise distinct ids. *)
Theorem init_db_primary_keys (prize_key player_key : nat → Z) :
  (∀ i j, (i < 100)%nat → (j < 100)%nat →
          player_key i = player_key j → i = j) →
  (∀ i j, (i < 8)%nat → (j < 8)%nat → prize_key i = prize_key j → i = j) →
  let db := init_db prize_key player_key empty_db in
  primary_key db ∧ NoDup (Prize.id <$> prizes db) ∧
  length (players db) = 100%nat ∧ length (prizes db) = 8%nat.
Proof.
  intros Hpl Hpr. cbn zeta. unfold init_db, primary_key.
  cbn [players prizes empty_db length]. rewrite !decide_True by done.
  split_and!.
  - apply NoDup_alt. intros i j x.
    rewrite !list_lookup_fmap, !fmap_Some.
    intros (p & Hp & ->) (q & Hq & Hid).
    apply seed_players_lookup in Hp as [Hi ->].
    apply seed_players_lookup in Hq as [Hj ->]. cbn in Hid. auto.
  - apply NoDup_alt. intros i j x.
    rewrite !list_lookup_fmap, !fmap_Some.
    intros (p & Hp & ->) (q & Hq & Hid).
    pose proof (lookup_lt_Some _ _ _ Hp) as Hi.
    pose proof (lookup_lt_Some _ _ _ Hq) as Hj.
    apply seed_prizes_lookup in Hp as (Hpi & _).
    apply seed_prizes_lookup in Hq as (Hqi & _).
    unfold seed_prizes in Hi, Hj. rewrite length_imap in Hi, Hj.
    cbn in Hi, Hj. apply Hpr; [done|done|congruence].
  - unfold seed_players. now rewrite length_imap, length_seqZ.
  - unfold seed_prizes. now rewrite length_imap.
Qed.

Section Seeded.

Context {G : Type}.
Variable uniform : Z → Z → G → Q * G.

(** X23. On a freshly seeded store every seeded player whose key is not
    zero can spin once a day: on any day the first request wins one of the
    seeded prizes and reports no spin left, and a second request on that
    day is rejected for the quota. *)
Theorem init_db_then_spin (prize_key player_key : nat → Z) (n : nat)
    (today_str : string) (g : G) :
  (n < 100)%nat → player_key n ≠ 0 →
  let db := init_db prize_key player_key empty_db in
  ∃ prize db1 g1,
    spin uniform (Some (player_key n)) today_str db g
    = (Success prize 0, db1, g1) ∧
    prize ∈ seed_prizes prize_key ∧
    spin uniform (Some (player_key n)) today_str db1 g1
    = (QuotaReached, db1, g1).
Proof.
  intros Hn Hkey db.
  assert (Hdb : db = mkDB (seed_players player_key) (seed_prizes prize_key)).
  { subst db. unfold init_db. cbn [players prizes empty_db length].
    now rewrite !decide_True by done. }
  destruct (query_active_player db (player_key n)) as [player|] eqn:Hq; cycle 1.
  { exfalso. rewrite query_active_player_None in Hq.
    assert (Hrow : seed_players player_key !! n
                   = Some (Player.mk (player_key n)
                             (Some ("User #" +:+ pretty (1 + Z.of_nat n)))
                             1 None 0 true))
      by now apply seed_players_lookup.
    apply list_elem_of_lookup_2 in Hrow.
    rewrite Hdb in Hq. now specialize (Hq _ Hrow eq_refl). }
  pose proof (query_active_player_Some _ _ _ Hq) as (Hin & _ & _).
  rewrite Hdb in Hin. cbn [players] in Hin.
  apply seed_players_elem_of in Hin as (Hspd & Hdate & Hused & _).
  assert (Hne : query_eligible_prizes db ≠ []).
  { assert (Hfirst : Prize.mk (prize_key 0%nat) "100K" 10 true
                     ∈ query_eligible_prizes db).
    { apply query_eligible_prizes_elem_of. rewrite Hdb. cbn [prizes].
      split; [|done]. unfold seed_prizes. cbn. left. }
    intros Hnil. rewrite Hnil in Hfirst. inversion Hfirst. }
  destruct (spin_twice uniform (player_key n) today_str db g player)
    as (prize & db1 & g1 & H1 & H2); [done|done|done| |done|].
  { unfold effective_spins_today. now rewrite Hdate, decide_False. }
  exists prize, db1, g1. split_and!; [done| |done].
  apply (spin_awards_eligible uniform) in H1 as (Hp & _).
  now rewrite Hdb in Hp.
Qed.

End Seeded.

(** ** Runs of the other routes on the sample data *)

Lemma serial_spins_within_quota_witness :
  count_granted
    (spin_repeat (constant_source (3 # 1)) 3 (Some 2) "2025-01-01"
       sample_db O).1.1 = 1.
Proof.
  assert (Hpid : 2 ≠ 0) by lia.
  destruct (serial_spins_within_quota (constant_source (3 # 1)) 3 2
              "2025-01-01" sample_db O bob Hpid eq_refl) as [_ Heq].
  rewrite Heq; [reflexivity|]. vm_compute. discriminate.
Defined.

Lemma spin_on_new_day_witness :
  ∃ prize,
    (spin (constant_source (3 # 1)) (Some 1) "2025-01-02" sample_db O).1.1
    = Success prize 0 ∧
    prize ∈ query_eligible_prizes sample_db.
Proof.
  assert (Hpid : 1 ≠ 0) by lia.
  apply (spin_on_new_day (constant_source (3 # 1)) 1 "2025-01-02" sample_db O
           alice Hpid eq_refl).
  - discriminate.
  - vm_compute. discriminate.
  - vm_compute. discriminate.
Defined.

Lemma status_after_spin_witness :
  ∃ pid name,
    sess_player_id bob_session = Some pid ∧
    player_status bob_session "2025-01-01"
      (spin_route (constant_source (3 # 1)) bob_session "2025-01-01"
         sample_db O).1.2
    = (mkStatus true 0 (Some (pid, name)), bob_session).
Proof.
  apply (status_after_spin (constant_source (3 # 1)) bob_session "2025-01-01"
           sample_db _ O 1%nat prize_a 0).
  vm_compute. reflexivity.
Defined.

Lemma spin_prize_listed_witness :
  prize_a ∈ get_prizes (Some "1") sample_db ∧
  prize_a ∈ get_prizes (Some "1")
    (spin_route (constant_source (3 # 1)) bob_session "2025-01-01"
       sample_db O).1.2 ∧
  Prize.active prize_a = true ∧ 0 < Prize.weight prize_a.
Proof.
  apply (spin_prize_listed (constant_source (3 # 1)) bob_session "2025-01-01"
           sample_db _ O 1%nat prize_a 0 (Some "1")).
  vm_compute. reflexivity.
Defined.

Lemma auto_login_then_spin_witness :
  granted (spin_route (constant_source (3 # 1)) bob_session "2025-01-01"
             small_db 7%nat).1.1 ∨
  (spin_route (constant_source (3 # 1)) bob_session "2025-01-01"
     small_db 7%nat).1.1 = NoActivePrizes.
Proof.
  apply (auto_login_then_spin (constant_source (3 # 1)) first_choice guest
           bob_session "2025-01-01" small_db small_db O 1%nat 7%nat).
  - unfold primary_key. apply (bool_decide_unpack _). vm_compute. exact I.
  - refine (proj1 (Forall_forall _ _) _). repeat constructor; discriminate.
  - refine (proj1 (Forall_forall _ _) _).
    repeat constructor; intros _; vm_compute; discriminate.
  - vm_compute. reflexivity.
Defined.

Lemma auto_login_no_account_left_witness :
  (auto_login first_choice guest "2025-01-01" small_db O).1.1.1
  ≠ ChoiceIndexError.
Proof.
  apply (auto_login_no_account_left first_choice guest "2025-01-01" small_db O).
  intros n g0 Hn. exact Hn.
Defined.

Lemma admin_login_logout_witness :
  (admin_login_api sample_key (λ s, s) (Some sample_key) guest).1 = LoginOk ∧
  check_admin sample_key
    (admin_logout_api
       (admin_login_api sample_key (λ s, s) (Some sample_key) guest).2)
    None None = false.
Proof.
  destruct (admin_login_logout sample_key (λ s, s) (Some sample_key) guest)
    as (Hok & _ & _ & _ & Hout & _); [discriminate|reflexivity|].
  split; [exact Hok|exact Hout].
Defined.

Lemma admin_routes_refuse_without_key_witness :
  admin_delete_prize sample_key guest (Some "guess") None 1 sample_db
  = (Unauthorized, sample_db).
Proof.
  apply (admin_routes_refuse_without_key sample_key guest (Some "guess") None
           1 0 None Absent None sample_db);
    [reflexivity|discriminate|discriminate].
Defined.

Lemma admin_unknown_prize_witness :
  admin_delete_prize sample_key guest (Some sample_key) None 9 sample_db
  = (PrizeNotFound, sample_db).
Proof.
  apply (admin_unknown_prize sample_key guest (Some sample_key) None 9 None
           Absent None sample_db); [reflexivity|].
  refine (proj1 (Forall_forall _ _) _). repeat constructor; discriminate.
Defined.

Lemma admin_delete_prize_effect_witness :
  (admin_delete_prize sample_key guest (Some sample_key) None 2 sample_db).1
  = Deleted ∧
  players
    (admin_delete_prize sample_key guest (Some sample_key) None 2 sample_db).2
  = players sample_db.
Proof.
  destruct (admin_delete_prize_effect (constant_source (3 # 1)) sample_key
              guest (Some sample_key) None 2 sample_db prize_b)
    as (Hresp & Hplayers & _); [reflexivity|reflexivity|].
  split; [exact Hresp|exact Hplayers].
Defined.


Lemma admin_update_then_spin_witness :
  Prize.mk 1 "100K" 20 true = Prize.mk 1 "100K" 20 true ∧
  Prize.active (Prize.mk 1 "100K" 20 true) = true ∧
  0 < Prize.weight (Prize.mk 1 "100K" 20 true).
Proof.
  apply (admin_update_then_spin (constant_source (3 # 1)) sample_key guest
           (Some sample_key) None 1 None (Given 20) None sample_db
           (admin_update_prize sample_key guest (Some sample_key) None 1 None
              (Given 20) None sample_db).2
           (Prize.mk 1 "100K" 20 true) (Some 2) "2025-01-01" O 1%nat
           (spin (constant_source (3 # 1)) (Some 2) "2025-01-01"
              (admin_update_prize sample_key guest (Some sample_key) None 1
                 None (Given 20) None sample_db).2 O).1.2
           (Prize.mk 1 "100K" 20 true) 0).
  - vm_compute. reflexivity.
  - vm_compute. reflexivity.
  - reflexivity.
Defined.



Lemma init_db_primary_keys_witness :
  primary_key (init_db key_from_one key_from_one empty_db) ∧
  length (players (init_db key_from_one key_from_one empty_db)) = 100%nat.
Proof.
  destruct (init_db_primary_keys key_from_one key_from_one)
    as (Hpk & _ & Hlen & _).
  - unfold key_from_one. intros i j _ _ Hij. lia.
  - unfold key_from_one. intros i j _ _ Hij. lia.
  - split; [exact Hpk|exact Hlen].
Defined.

Lemma init_db_then_spin_witness :
  ∃ prize db1 g1,
    spin (constant_source (3 # 1)) (Some 1) "2025-01-01"
      (init_db key_from_one key_from_one empty_db) O
    = (Success prize 0, db1, g1) ∧
    prize ∈ seed_prizes key_from_one ∧
    spin (constant_source (3 # 1)) (Some 1) "2025-01-01" db1 g1
    = (QuotaReached, db1, g1).
Proof.
  apply (init_db_then_spin (constant_source (3 # 1)) key_from_one key_from_one
           0%nat "2025-01-01" O); [lia|vm_compute; discriminate].
Defined.
